(** * Weather API (wapp.py): the cache-aside lookup behind the /weather route

    A shallow embedding of [fetch_weather] and of the [/weather] route of
    [src/Weather API/wapp.py]. The two functions are written as programs
    over the three kinds of calls they make to the outside (Redis [get] and
    [setex], [requests.get], [print]); an interpreter runs such a program
    against a clock, a Redis database and an environment that decides how the
    network behaves. *)

From Stdlib Require Import ZArith Lia Ascii String.
From stdpp Require Import base option list strings pretty gmap.

Set Warnings "-register-all".
Local Open Scope Z_scope.

(** ** Python text

    A Python [str] is modelled as a Rocq [string] whose characters are the
    code points U+0000..U+00FF; [str.isspace], [str.lower] and [str.strip]
    are Python's on text of that range, where [str.lower] works character
    by character. Text with code points above U+00FF is not covered: there
    [str.lower] depends on the neighbours of a character (a capital sigma
    at the end of a word) and may change the length of the text. *)

Module PyStr.

Definition code (c : ascii) : N := N_of_ascii c.

Definition in_range (lo hi : N) (c : ascii) : bool :=
  ((lo <=? code c) && (code c <=? hi))%N.

(** [chr(i).isspace()] for [i < 256]: TAB..CR, FS..US, space, NEL, NBSP. *)
Definition isspace (c : ascii) : bool :=
  in_range 9 13 c || in_range 28 32 c
  || (code c =? 133)%N || (code c =? 160)%N.

(** The characters [chr(i)] with [chr(i).lower() != chr(i)], [i < 256]:
    A..Z, U+00C0..U+00D6 and U+00D8..U+00DE. *)
Definition isupper (c : ascii) : bool :=
  in_range 65 90 c || in_range 192 214 c || in_range 216 222 c.

(** [chr(i).lower()]: the code point 32 above for the characters of
    [isupper], the character itself otherwise. *)
Definition lower_char (c : ascii) : ascii :=
  if isupper c then ascii_of_N (code c + 32) else c.

(** [s.lower()] *)
Fixpoint lower (s : string) : string :=
  match s with
  | EmptyString => EmptyString
  | String c s' => String (lower_char c) (lower s')
  end.

(** [s.lstrip()] *)
Fixpoint lstrip (s : string) : string :=
  match s with
  | EmptyString => EmptyString
  | String c s' => if isspace c then lstrip s' else s
  end.

(** [s.rstrip()] *)
Fixpoint rstrip (s : string) : string :=
  match s with
  | EmptyString => EmptyString
  | String c s' =>
      match rstrip s' with
      | EmptyString => if isspace c then EmptyString else String c EmptyString
      | r => String c r
      end
  end.

(** [s.strip()] *)
Definition strip (s : string) : string := rstrip (lstrip s).

Definition comma : ascii := ","%char.

(** [s.partition(",")] when a comma occurs in [s]: the text before the
    first comma and the text after it. *)
Fixpoint cut_comma (s : string) : option (string * string) :=
  match s with
  | EmptyString => None
  | String c s' =>
      if Ascii.eqb c comma then Some (EmptyString, s')
      else match cut_comma s' with
           | Some (a, b) => Some (String c a, b)
           | None => None
           end
  end.

(** [s.split(",", 1)]: at most one split, at the first comma. *)
Definition split_comma_1 (s : string) : list string :=
  match cut_comma s with
  | Some (a, b) => [a; b]
  | None => [s]
  end.

(** Truth value of a [str]: only the empty string is falsy. *)
Definition truthy (s : string) : bool :=
  match s with EmptyString => false | _ => true end.

Definition LF : string := String (ascii_of_N 10) EmptyString.

End PyStr.

(** ** Python values and exceptions *)

(** What [response.json()] and [json.loads] produce, and what the route hands
    to its template: [None], [bool], [int], [float] (kept as the decimal
    literal [mantissa * 10^exponent] the payload carried), [str], [list] and
    [dict] (in insertion order, with distinct keys). *)
Inductive json : Type :=
| JNull
| JBool (b : bool)
| JInt (n : Z)
| JFloat (mantissa exponent : Z)
| JStr (s : string)
| JArr (items : list json)
| JObj (fields : list (string * json)).

(** The exceptions the two functions can meet. *)
Inductive exn : Type :=
| KeyError (key : string)
| TypeError
| AttributeError
| ValueError
| JSONDecodeError
| RedisConnectionError
| RedisResponseError
| RequestException.

(** [isinstance(e, ValueError)], as an [except ValueError] clause asks it:
    [json.JSONDecodeError], which [json.loads] raises and which
    [response.json()] raises through [requests], is a subclass of
    [ValueError]. *)
Definition is_ValueError (e : exn) : bool :=
  match e with
  | ValueError | JSONDecodeError => true
  | _ => false
  end.

Inductive outcome (A : Type) : Type :=
| Returned (a : A)
| Raised (e : exn).
Arguments Returned {A} a.
Arguments Raised {A} e.

#[global] Instance outcome_ret : MRet outcome := @Returned.
#[global] Instance outcome_bind : MBind outcome := fun A B f m =>
  match m with
  | Returned a => f a
  | Raised e => Raised e
  end.

(** Lookup in a [dict] held as an association list. *)
Fixpoint assoc (fields : list (string * json)) (key : string) : option json :=
  match fields with
  | [] => None
  | (k, v) :: rest => if String.eqb k key then Some v else assoc rest key
  end.

(** [obj[key]] with a [str] key: [KeyError] on a [dict] without the key,
    [TypeError] on every other kind of value. *)
Definition getitem (obj : json) (key : string) : outcome json :=
  match obj with
  | JObj fields =>
      match assoc fields key with
      | Some v => Returned v
      | None => Raised (KeyError key)
      end
  | _ => Raised TypeError
  end.

(** [obj.get(key)]: [None] on a [dict] without the key, [AttributeError] on
    a value that is not a [dict]. *)
Definition dict_get (obj : json) (key : string) : outcome json :=
  match obj with
  | JObj fields =>
      match assoc fields key with
      | Some v => Returned v
      | None => Returned JNull
      end
  | _ => Raised AttributeError
  end.

(** [x is None] *)
Definition is_None (x : json) : bool :=
  match x with JNull => true | _ => false end.

(** ** Programs over the outside world *)

(** The answer of [requests.get]: a status code and a body, [payload] being
    what [response.json()] returns ([None] when the body is not JSON). *)
Record response : Type := {
  status_code : Z;
  payload : option json
}.

(** The query parameters of a request; a value may be Python's [None]. *)
Definition params_t : Type := list (string * option string).

(** A program is a tree of calls to the outside ending in a returned value or
    a raised exception. *)
Inductive prog (A : Type) : Type :=
| Ret (a : A)
| Raise (e : exn)
| Print (args : list json) (k : prog A)
| RedisGet (name : string) (k : option string -> prog A)
| RedisSetex (name : string) (time : Z) (value : string) (k : prog A)
| RequestsGet (url : option string) (params : params_t) (k : response -> prog A).
Arguments Ret {A} a.
Arguments Raise {A} e.
Arguments Print {A} args k.
Arguments RedisGet {A} name k.
Arguments RedisSetex {A} name time value k.
Arguments RequestsGet {A} url params k.

Fixpoint bind {A B : Type} (m : prog A) (f : A -> prog B) : prog B :=
  match m with
  | Ret a => f a
  | Raise e => Raise e
  | Print args k => Print args (bind k f)
  | RedisGet name k => RedisGet name (fun v => bind (k v) f)
  | RedisSetex name time value k => RedisSetex name time value (bind k f)
  | RequestsGet url params k => RequestsGet url params (fun r => bind (k r) f)
  end.

#[global] Instance prog_ret : MRet prog := @Ret.
#[global] Instance prog_bind : MBind prog := fun A B f m => bind m f.

(** A pure computation that may raise, as a program. *)
Definition lift {A : Type} (o : outcome A) : prog A :=
  match o with
  | Returned a => Ret a
  | Raised e => Raise e
  end.

Definition print (args : list json) : prog unit := Print args (Ret tt).
Definition client_get (name : string) : prog (option string) :=
  RedisGet name Ret.
Definition client_setex (name : string) (time : Z) (value : string) : prog unit :=
  RedisSetex name time value (Ret tt).
Definition requests_get (url : option string) (params : params_t) : prog response :=
  RequestsGet url params Ret.

(** [response.json()] *)
Definition response_json (r : response) : outcome json :=
  match payload r with
  | Some body => Returned body
  | None => Raised JSONDecodeError
  end.

(** ** The outside world *)

(** What a program did to the outside, in order. *)
Inductive event : Type :=
| EvPrint (args : list json)
| EvRedisGet (name : string)
| EvRedisSetex (name : string) (time : Z) (value : string)
| EvRequestsGet (url : option string) (params : params_t).

(** How one [requests.get] ends: with a response, or with an exception of
    [requests] (connection refused, timeout, ...). *)
Inductive http_result : Type :=
| Responded (r : response)
| Failed.

(** The part of the world the program does not control. Both fields are
    asked with the history of calls up to and including the call being
    answered, so every behaviour that depends on what happened so far is an
    environment.
    - [redis_fails h]: the Redis call that ends [h] finds the server
      unreachable;
    - [http h]: how long, in seconds, the HTTP request that ends [h] takes
      and how it ends. *)
Record Env : Type := {
  redis_fails : list event -> bool;
  http : list event -> nat * http_result
}.

(** The clock (seconds), Redis database 0 (each key with its value and the
    time at which it expires) and the history of calls. *)
Record World : Type := {
  now : Z;
  redis_db : gmap string (string * Z);
  trace : list event
}.

Definition log (e : event) (w : World) : World :=
  {| now := now w; redis_db := redis_db w; trace := trace w ++ [e] |}.

(** Time passing between two requests. *)
Definition advance (dt : Z) (w : World) : World :=
  {| now := now w + dt; redis_db := redis_db w; trace := trace w |}.

(** Modelled from the spec: the cache backend, a Redis server reached through
    redis-py, is not part of the repository. Its [get] follows the CacheStore
    contract of the specification: an entry written at [storedAt] with
    time-to-live [ttl] is kept with [storedAt + ttl] and is visible exactly
    while [now < storedAt + ttl]; an expired entry reads as a missing one even
    though it is still resident. *)
Definition cache_lookup (db : gmap string (string * Z)) (t : Z) (name : string)
  : option string :=
  match db !! name with
  | Some (value, expires) => if t <? expires then Some value else None
  | None => None
  end.

(** Modelled from the spec: [set(key, value, ttl)] of the CacheStore contract
    stores a new entry with [storedAt = now] and overwrites any entry of the
    key. *)
Definition cache_store (db : gmap string (string * Z)) (t : Z)
    (name : string) (time : Z) (value : string) : gmap string (string * Z) :=
  <[name := (value, t + time)]> db.

Section Interpreter.

Variable env : Env.

(** [client.get(name)]: [ConnectionError] when the server is unreachable. *)
Definition do_get (name : string) (w : World) : outcome (option string) * World :=
  let w' := log (EvRedisGet name) w in
  if redis_fails env (trace w') then (Raised RedisConnectionError, w')
  else (Returned (cache_lookup (redis_db w') (now w') name), w').

(** [client.setex(name, time, value)]: [ConnectionError] when the server is
    unreachable; the server refuses a time-to-live that is not positive
    ([ResponseError]: invalid expire time). *)
Definition do_setex (name : string) (time : Z) (value : string) (w : World)
  : outcome unit * World :=
  let w' := log (EvRedisSetex name time value) w in
  if redis_fails env (trace w') then (Raised RedisConnectionError, w')
  else if time <=? 0 then (Raised RedisResponseError, w')
  else (Returned tt,
        {| now := now w';
           redis_db := cache_store (redis_db w') (now w') name time value;
           trace := trace w' |}).

(** [requests.get(url, params=params)]: the clock moves by the time the
    request takes. *)
Definition do_request (url : option string) (params : params_t) (w : World)
  : outcome response * World :=
  let w' := log (EvRequestsGet url params) w in
  let '(elapsed, result) := http env (trace w') in
  let w'' := advance (Z.of_nat elapsed) w' in
  match result with
  | Responded r => (Returned r, w'')
  | Failed => (Raised RequestException, w'')
  end.

(** One call to the outside: the program that remains and the world after
    the call. A finished program does not move. *)
Definition step {A : Type} (p : prog A) (w : World) : prog A * World :=
  match p with
  | Ret a => (Ret a, w)
  | Raise e => (Raise e, w)
  | Print args k => (k, log (EvPrint args) w)
  | RedisGet name k =>
      match do_get name w with
      | (Returned v, w') => (k v, w')
      | (Raised e, w') => (Raise e, w')
      end
  | RedisSetex name time value k =>
      match do_setex name time value w with
      | (Returned _, w') => (k, w')
      | (Raised e, w') => (Raise e, w')
      end
  | RequestsGet url params k =>
      match do_request url params w with
      | (Returned r, w') => (k r, w')
      | (Raised e, w') => (Raise e, w')
      end
  end.

(** A program run to its end by one caller. *)
Fixpoint run {A : Type} (p : prog A) (w : World) : outcome A * World :=
  match p with
  | Ret a => (Returned a, w)
  | Raise e => (Raised e, w)
  | Print args k => run k (log (EvPrint args) w)
  | RedisGet name k =>
      match do_get name w with
      | (Returned v, w') => run (k v) w'
      | (Raised e, w') => (Raised e, w')
      end
  | RedisSetex name time value k =>
      match do_setex name time value w with
      | (Returned _, w') => run k w'
      | (Raised e, w') => (Raised e, w')
      end
  | RequestsGet url params k =>
      match do_request url params w with
      | (Returned r, w') => run (k r) w'
      | (Raised e, w') => (Raised e, w')
      end
  end.

(** Several callers served at once: a pool of programs and a schedule
    naming, call after call, the program that makes the next call to the
    outside. *)
Definition step_at {A : Type} (i : nat) (pool : list (prog A)) (w : World)
  : list (prog A) * World :=
  match pool !! i with
  | Some p => let '(p', w') := step p w in (<[i := p']> pool, w')
  | None => (pool, w)
  end.

Fixpoint run_schedule {A : Type} (schedule : list nat) (pool : list (prog A))
    (w : World) : list (prog A) * World :=
  match schedule with
  | [] => (pool, w)
  | i :: rest => let '(pool', w') := step_at i pool w in run_schedule rest pool' w'
  end.

End Interpreter.

(** The number of HTTP requests, and of Redis calls, in a history. *)
Definition is_request (e : event) : bool :=
  match e with EvRequestsGet _ _ => true | _ => false end.
Definition is_redis (e : event) : bool :=
  match e with EvRedisGet _ | EvRedisSetex _ _ _ => true | _ => false end.
Fixpoint count (f : event -> bool) (h : list event) : nat :=
  match h with
  | [] => O
  | e :: h' => if f e then S (count f h') else count f h'
  end.
Definition upstream_calls (h : list event) : nat := count is_request h.
Definition cache_calls (h : list event) : nat := count is_redis h.

(** ** wapp.py *)

(** The names the module binds when it is loaded and the two library
    functions it calls on values:
    - [API_KEY], [url]: [os.getenv] gives [None] for a variable that is not
      set;
    - [cache_time]: went through [int];
    - [json_dumps], [json_loads]: [json.dumps] and [json.loads] of the
      standard library, [json_loads] giving [None] where [json.loads] raises
      [JSONDecodeError]. *)
Class Globals : Type := {
  API_KEY : option string;
  cache_time : Z;
  url : option string;
  json_dumps : json -> string;
  json_loads : string -> option json
}.

(** What the route gives back to Flask: a plain text, or a rendered
    template with the value passed to it. *)
Inductive reply : Type :=
| Text (body : string)
| Rendered (template : string) (data : json).

Section Wapp.

Context {globals : Globals}.

(** [f"weather:{city},{country}"] *)
Definition cache_key (city country : string) : string :=
  "weather:" +:+ city +:+ "," +:+ country.

(** The dictionary literal of [fetch_weather]; its values are evaluated in
    the order written, so the first read that fails decides the
    exception. *)
Definition extract (body : json) : outcome json :=
  name ← dict_get body "name";
  temperature ← getitem body "main" ≫= (fun m => getitem m "temp");
  feels_like ← getitem body "main" ≫= (fun m => getitem m "feels_like");
  humidity ← getitem body "main" ≫= (fun m => getitem m "humidity");
  pressure ← getitem body "main" ≫= (fun m => getitem m "pressure");
  wind ← getitem body "wind" ≫= (fun m => getitem m "speed");
  clouds ← getitem body "clouds" ≫= (fun m => getitem m "all");
  timezone ← getitem body "timezone";
  mret (JObj [("name", name);
              ("temperature", temperature);
              ("feels_like", feels_like);
              ("humidity", humidity);
              ("pressure", pressure);
              ("wind", wind);
              ("clouds", clouds);
              ("timezone", timezone)]).

(** Truth value of what [client.get] returns: [None] and the empty string
    are falsy. *)
Definition truth (cached_data : option string) : bool :=
  match cached_data with
  | Some s => PyStr.truthy s
  | None => false
  end.

(** [json.loads(cached_data)]; [json.loads(None)] is a [TypeError]. *)
Definition loads (cached_data : option string) : outcome json :=
  match cached_data with
  | Some s =>
      match json_loads s with
      | Some v => Returned v
      | None => Raised JSONDecodeError
      end
  | None => Raised TypeError
  end.

(** The branch of [fetch_weather] taken when the cache answered. *)
Definition from_cache (cached_data : option string) : prog json :=
  print [JStr ("[From cache]" +:+ PyStr.LF)];;
  data ← lift (loads cached_data);
  print [data];;
  mret data.

(** The rest of [fetch_weather], run when the cache did not answer. *)
Definition from_api (cache_key city country : string) : prog json :=
  let params : params_t :=
    [("q", Some (city +:+ "," +:+ country));
     ("appid", API_KEY);
     ("units", Some "metric")] in
  response ← requests_get url params;
  if negb (status_code response =? 200) then
    print [JStr "API Error:"; JInt (status_code response)];;
    mret JNull
  else
    body ← lift (response_json response);
    data ← lift (extract body);
    print [JStr ("[From API]" +:+ PyStr.LF)];;
    print [data];;
    client_setex cache_key cache_time (json_dumps data);;
    mret data.

(** [fetch_weather(city, country)] *)
Definition fetch_weather (city country : string) : prog json :=
  let cache_key := cache_key city country in
  cached_data ← client_get cache_key;
  if truth cached_data then from_cache cached_data
  else from_api cache_key city country.

(** [[x.strip().lower() for x in info.split(",", 1)]] *)
Definition location_parts (info : string) : list string :=
  map (fun x => PyStr.lower (PyStr.strip x)) (PyStr.split_comma_1 info).

(** [city, country = parts]: unpacking a list that does not hold exactly
    two values is a [ValueError]. *)
Definition unpack2 (parts : list string) : outcome (string * string) :=
  match parts with
  | [a; b] => Returned (a, b)
  | _ => Raised ValueError
  end.

(** The body of the [try]; [None.split] would be an [AttributeError]. *)
Definition split_location (info : option string) : outcome (string * string) :=
  match info with
  | Some s => unpack2 (location_parts s)
  | None => Raised AttributeError
  end.

Definition invalid_input : string := "Invalid input. Try e.g. Hyderabad,IN".
Definition invalid_format : string :=
  "Invalid format. Use City,Country (e.g. Hyderabad,IN)".
Definition could_not_fetch : string :=
  "Could not fetch weather. Please check city name.".

(** The [/weather] route; [info] is [request.args.get("city")], [None]
    when the query has no [city] parameter. The [try] holds the unpacking
    only: what [fetch_weather] raises is not caught. *)
Definition weather (info : option string) : prog reply :=
  if negb (truth info) then mret (Text invalid_input)
  else
    match split_location info with
    | Raised e =>
        if is_ValueError e then mret (Text invalid_format) else Raise e
    | Returned (city, country) =>
        data ← fetch_weather city country;
        if is_None data then mret (Text could_not_fetch)
        else mret (Rendered "weather_info.html" data)
    end.

(** The cache key the route looks up for an input, [None] for an input that
    does not unpack into a city and a country. *)
Definition route_key (info : string) : option string :=
  match split_location (Some info) with
  | Returned (city, country) => Some (cache_key city country)
  | Raised _ => None
  end.

End Wapp.

(** ** Names for what the run of [fetch_weather] leaves in the history *)

(** The [params] dictionary of [fetch_weather]. *)
Definition request_params `{Globals} (city country : string) : params_t :=
  [("q", Some (city +:+ "," +:+ country));
   ("appid", API_KEY);
   ("units", Some "metric")].

Definition from_cache_banner : event :=
  EvPrint [JStr ("[From cache]" +:+ PyStr.LF)].
Definition from_api_banner : event :=
  EvPrint [JStr ("[From API]" +:+ PyStr.LF)].

(** The write that ends the API branch of [fetch_weather], with the value
    the function returns after it. *)
Definition populate `{Globals} (env : Env)
    (key : string) (data : json) (w : World) : outcome json * World :=
  match do_setex env key cache_time (json_dumps data) w with
  | (Returned _, w') => (Returned data, w')
  | (Raised e, w') => (Raised e, w')
  end.

(** ** Test doubles

    A small serializer standing for [json.dumps] / [json.loads], and sample
    settings, payloads and environments; the examples and counterexamples
    below run the code against them. *)

Module Sample.

Definition dquote : string := String (ascii_of_N 34) EmptyString.
Definition quoted (s : string) : string := dquote +:+ s +:+ dquote.

Fixpoint join (parts : list string) : string :=
  match parts with
  | [] => EmptyString
  | [x] => x
  | x :: rest => x +:+ ", " +:+ join rest
  end.

(** Prints a value the way [json.dumps] lays it out (no escapes, a float
    as its literal). *)
Fixpoint dumps (j : json) : string :=
  match j with
  | JNull => "null"
  | JBool true => "true"
  | JBool false => "false"
  | JInt n => pretty n
  | JFloat m e => pretty m +:+ "e" +:+ pretty e
  | JStr s => quoted s
  | JArr items => "[" +:+ join (map dumps items) +:+ "]"
  | JObj fields =>
      "{" +:+ join (map (fun kv => quoted (fst kv) +:+ ": " +:+ dumps (snd kv)) fields)
          +:+ "}"
  end.

(** Reads back the documents of [known], and nothing else. *)
Definition loads_among (known : list json) (s : string) : option json :=
  List.find (fun j => String.eqb (dumps j) s) known.


(** A payload with every field [fetch_weather] reads. *)
Definition body : json :=
  JObj [("coord", JObj [("lon", JFloat 7847 (-2)); ("lat", JFloat 1738 (-2))]);
        ("main", JObj [("temp", JFloat 301 (-1));
                       ("feels_like", JFloat 3312 (-2));
                       ("pressure", JInt 1009);
                       ("humidity", JInt 65)]);
        ("wind", JObj [("speed", JFloat 36 (-1)); ("deg", JInt 250)]);
        ("clouds", JObj [("all", JInt 0)]);
        ("timezone", JInt 19800);
        ("name", JStr "Hyderabad");
        ("cod", JInt 200)].

(** The record [fetch_weather] builds from [body]. *)
Definition record : json :=
  JObj [("name", JStr "Hyderabad");
        ("temperature", JFloat 301 (-1));
        ("feels_like", JFloat 3312 (-2));
        ("humidity", JInt 65);
        ("pressure", JInt 1009);
        ("wind", JFloat 36 (-1));
        ("clouds", JInt 0);
        ("timezone", JInt 19800)].

Definition loads : string -> option json := loads_among [record].

Definition globals : Globals :=
  {| API_KEY := Some "0123456789abcdef";
     cache_time := 300;
     url := Some "https://api.openweathermap.org/data/2.5/weather";
     json_dumps := dumps;
     json_loads := loads |}.

(** A payload of status 200 that lacks ["main"]. *)
Definition body_without_main : json :=
  JObj [("name", JStr "Hyderabad"); ("timezone", JInt 19800)].

(** A payload of status 200 that lacks ["name"] only. *)
Definition body_without_name : json :=
  JObj [("main", JObj [("temp", JInt 0);
                       ("feels_like", JInt 0);
                       ("pressure", JInt 1009);
                       ("humidity", JInt 65)]);
        ("wind", JObj [("speed", JInt 0)]);
        ("clouds", JObj [("all", JInt 0)]);
        ("timezone", JInt 19800)].

Definition answers (status : Z) (payload : option json) : list event -> nat * http_result :=
  fun _ => (1%nat, Responded {| status_code := status; payload := payload |}).

(** Redis and the provider both work. *)
Definition healthy : Env :=
  {| redis_fails := fun _ => false; http := answers 200 (Some body) |}.

(** Redis is unreachable on every call; the provider works. *)
Definition cache_outage : Env :=
  {| redis_fails := fun _ => true; http := answers 200 (Some body) |}.

(** Redis answers reads and refuses writes; the provider works. *)
Definition cache_read_only : Env :=
  {| redis_fails := fun h =>
       match last h with
       | Some (EvRedisSetex _ _ _) => true
       | _ => false
       end;
     http := answers 200 (Some body) |}.

(** Redis works; the provider answers every request with [status]. *)
Definition provider_status (status : Z) : Env :=
  {| redis_fails := fun _ => false;
     http := answers status (Some (JObj [("cod", JInt status)])) |}.

(** Redis works; every request to the provider fails in transport. *)
Definition provider_down : Env :=
  {| redis_fails := fun _ => false; http := fun _ => (30%nat, Failed) |}.

(** Redis works; the provider answers 200 with the given payload. *)
Definition provider_payload (payload : json) : Env :=
  {| redis_fails := fun _ => false; http := answers 200 (Some payload) |}.

(** An empty database at time 0, nothing called yet. *)
Definition cold : World := {| now := 0; redis_db := ∅; trace := [] |}.

End Sample.

(** The number of cache writes in a history. *)
Definition is_setex (e : event) : bool :=
  match e with EvRedisSetex _ _ _ => true | _ => false end.
Definition cache_writes (h : list event) : nat := count is_setex h.

(** ** Inputs of the route *)

(** [","] occurs in [s]. *)
Fixpoint has_comma (s : string) : bool :=
  match s with
  | EmptyString => false
  | String c s' => Ascii.eqb c PyStr.comma || has_comma s'
  end.

(** The inputs the route refuses: no [city] parameter, or a text without a
    comma (the empty text among them). *)
Definition malformed (info : option string) : bool :=
  match info with
  | None => true
  | Some s => negb (has_comma s)
  end.

(** ** Variants of an input *)

(** Every character of [s] is whitespace. *)
Fixpoint all_space (s : string) : bool :=
  match s with
  | EmptyString => true
  | String c s' => PyStr.isspace c && all_space s'
  end.






(** ** Worlds that read alike *)

(** The world with the entry of [name] removed from the database. *)
Definition forget (name : string) (w : World) : World :=
  {| now := now w; redis_db := delete name (redis_db w); trace := trace w |}.

(** Two worlds no caller can tell apart: the same clock, the same history,
    and the same answer to every cache read from now on. *)
Definition same_view (w1 w2 : World) : Prop :=
  now w1 = now w2
  /\ trace w1 = trace w2
  /\ forall t name, now w1 <= t ->
       cache_lookup (redis_db w1) t name = cache_lookup (redis_db w2) t name.

(** ** Several requests *)

(** Requests served one after the other, each given with the time that
    passes before it arrives: what each caller gets, in order, and the world
    at the end. *)
Fixpoint serve_in_turn {A : Type} (env : Env) (requests : list (Z * prog A))
    (w : World) : list (outcome A) * World :=
  match requests with
  | [] => ([], w)
  | (gap, p) :: rest =>
      let '(r, w') := run env p (advance gap w) in
      let '(rs, w'') := serve_in_turn env rest w' in
      (r :: rs, w'')
  end.

Fixpoint total (gaps : list Z) : Z :=
  match gaps with
  | [] => 0
  | g :: rest => g + total rest
  end.

(** ** Reading a payload by path *)

(** The value a dictionary holds under [key]; nothing for a missing key or
    for a value that is not a dictionary. *)
Definition field (obj : json) (key : string) : option json :=
  match obj with
  | JObj fields => assoc fields key
  | _ => None
  end.

(** The value reached by following [path] through nested dictionaries. *)
Fixpoint at_path (obj : json) (path : list string) : option json :=
  match path with
  | [] => Some obj
  | key :: rest =>
      match field obj key with
      | Some v => at_path v rest
      | None => None
      end
  end.

Definition is_dict (obj : json) : bool :=
  match obj with JObj _ => true | _ => false end.

(** The keys of the record [fetch_weather] builds, in order. *)
Definition record_keys : list string :=
  ["name"; "temperature"; "feels_like"; "humidity"; "pressure"; "wind";
   "clouds"; "timezone"].

(** A dictionary with exactly the keys of the record, in order. *)
Definition is_record (data : json) : Prop :=
  exists fields, data = JObj fields /\ map fst fields = record_keys.

(** The number of cache reads in a history. *)
Definition is_get (e : event) : bool :=
  match e with EvRedisGet _ => true | _ => false end.
Definition cache_reads (h : list event) : nat := count is_get h.

(** ** Trimmed text *)

(** [s] does not start with whitespace. *)
Definition starts_clean (s : string) : bool :=
  match s with
  | EmptyString => true
  | String c _ => negb (PyStr.isspace c)
  end.

(** [s] does not end with whitespace. *)
Fixpoint ends_clean (s : string) : bool :=
  match s with
  | EmptyString => true
  | String c EmptyString => negb (PyStr.isspace c)
  | String _ s' => ends_clean s'
  end.

(** No upper-case letter occurs in [s]. *)
Fixpoint all_lower (s : string) : bool :=
  match s with
  | EmptyString => true
  | String c s' => negb (PyStr.isupper c) && all_lower s'
  end.

(** ** Worlds with an entry this code did not write *)

Module Foreign.

(** The key of Hyderabad holds a text that is not JSON, live until 300. *)
Definition corrupt : World :=
  {| now := 0;
     redis_db := {[ "weather:hyderabad,in" := ("not json", 300) ]};
     trace := [] |}.

(** The key of Hyderabad holds the empty text, live until 300. *)
Definition blank : World :=
  {| now := 0;
     redis_db := {[ "weather:hyderabad,in" := (EmptyString, 300) ]};
     trace := [] |}.

End Foreign.

(** Following the claim's words (the expected City,Country format): a
    [city] parameter that unpacks into a city and a country, neither of
    them empty. An input that is not of this form is malformed in the
    claim's sense. *)
Definition spec_well_formed (info : option string) : bool :=
  match info with
  | Some s =>
      match split_location (Some s) with
      | Returned (city, country) =>
          negb (String.eqb city EmptyString)
          && negb (String.eqb country EmptyString)
      | Raised _ => false
      end
  | None => false
  end.

(** * Properties *)

(** ** The text functions on examples *)

Example strip_example :
  PyStr.strip ("  New York " +:+ PyStr.LF) = "New York"
  /\ PyStr.strip "   " = EmptyString
  /\ PyStr.lower "HyderaBad 42" = "hyderabad 42".
Proof. repeat split; reflexivity. Qed.

Example split_example :
  PyStr.split_comma_1 "a,b,c" = ["a"; "b,c"]
  /\ PyStr.split_comma_1 "abc" = ["abc"]
  /\ PyStr.split_comma_1 "," = [EmptyString; EmptyString]
  /\ PyStr.split_comma_1 EmptyString = [EmptyString].
Proof. repeat split; reflexivity. Qed.

Example location_example :
  split_location (Some " Hyderabad , IN ") = Returned ("hyderabad", "in")
  /\ split_location (Some "Hyderabad") = Raised ValueError
  /\ route_key "Paris,FR,75" = Some "weather:paris,fr,75".
Proof. repeat split; reflexivity. Qed.

(** ** Histories and the interpreter *)

Lemma count_app (f : event -> bool) (h1 h2 : list event) :
  count f (h1 ++ h2) = (count f h1 + count f h2)%nat.
Proof.
  induction h1 as [|e h1 IH]; simpl; [reflexivity|].
  destruct (f e); rewrite IH; reflexivity.
Qed.

Lemma upstream_calls_app (h1 h2 : list event) :
  upstream_calls (h1 ++ h2) = (upstream_calls h1 + upstream_calls h2)%nat.
Proof. apply count_app. Qed.

Lemma cache_calls_app (h1 h2 : list event) :
  cache_calls (h1 ++ h2) = (cache_calls h1 + cache_calls h2)%nat.
Proof. apply count_app. Qed.

Lemma run_bind (env : Env) {A B : Type} (m : prog A) (f : A -> prog B) (w : World) :
  run env (m ≫= f) w =
  match run env m w with
  | (Returned a, w') => run env (f a) w'
  | (Raised e, w') => (Raised e, w')
  end.
Proof.
  unfold mbind, prog_bind. revert w.
  induction m as [a|e|args k IH|name k IH|name time value k IH|u ps k IH];
    intros w; simpl; try reflexivity.
  - apply IH.
  - destruct (do_get env name w) as [[v|e] w']; [apply IH|reflexivity].
  - destruct (do_setex env name time value w) as [[v|e] w']; [apply IH|reflexivity].
  - destruct (do_request env u ps w) as [[r|e] w']; [apply IH|reflexivity].
Qed.

(** Histories are compared as one list: [(h ++ a) ++ b] becomes
    [h ++ a ++ b] everywhere. *)
Ltac flatten_history :=
  repeat rewrite <- app_assoc in *; cbn [app] in *.

Section RunEquations.

Context {globals : Globals}.
Variable env : Env.

(** [fetch_weather] starts with the cache read; a failing read ends it. *)
Lemma run_fetch_weather (city country : string) (w : World) :
  run env (fetch_weather city country) w =
  let key := cache_key city country in
  let w' := log (EvRedisGet key) w in
  if redis_fails env (trace w') then (Raised RedisConnectionError, w')
  else if truth (cache_lookup (redis_db w) (now w) key)
       then run env (from_cache (cache_lookup (redis_db w) (now w) key)) w'
       else run env (from_api key city country) w'.
Proof.
  unfold fetch_weather, client_get.
  rewrite run_bind. cbn [run]. unfold do_get. cbv zeta.
  destruct (redis_fails env _); [reflexivity|].
  cbn [run log redis_db now]. destruct (truth _); reflexivity.
Qed.

Lemma run_from_cache (cached : string) (w : World) :
  run env (from_cache (Some cached)) w =
  match json_loads cached with
  | Some data =>
      (Returned data, log (EvPrint [data]) (log from_cache_banner w))
  | None => (Raised JSONDecodeError, log from_cache_banner w)
  end.
Proof.
  unfold from_cache. cbn.
  destruct (json_loads cached); reflexivity.
Qed.

Lemma run_from_api (key city country : string) (w : World) :
  run env (from_api key city country) w =
  let w1 := log (EvRequestsGet url (request_params city country)) w in
  match http env (trace w1) with
  | (elapsed, Failed) => (Raised RequestException, advance (Z.of_nat elapsed) w1)
  | (elapsed, Responded r) =>
      let w2 := advance (Z.of_nat elapsed) w1 in
      if negb (status_code r =? 200)
      then (Returned JNull,
            log (EvPrint [JStr "API Error:"; JInt (status_code r)]) w2)
      else match response_json r ≫= extract with
           | Raised e => (Raised e, w2)
           | Returned data =>
               populate env key data (log (EvPrint [data]) (log from_api_banner w2))
           end
  end.
Proof.
  unfold from_api, populate, request_params. cbn. unfold do_request. cbn.
  destruct (http env _) as [elapsed [r|]]; [|reflexivity].
  cbn. destruct (negb _); [reflexivity|].
  unfold response_json. destruct (payload r) as [body|]; [|reflexivity].
  cbn. destruct (extract body) as [data|e]; [|reflexivity].
  cbn. destruct (do_setex _ _ _ _ _) as [[[]|e] w']; reflexivity.
Qed.

(** The API branch asks the provider exactly once, however the request
    ends. *)
Lemma from_api_one_request (key city country : string) (w : World) :
  upstream_calls (trace (snd (run env (from_api key city country) w)))
  = S (upstream_calls (trace w)).
Proof.
  rewrite run_from_api. cbv zeta.
  destruct (http env _) as [elapsed [r|]]; cbn [snd];
    [destruct (negb _); [|destruct (_ ≫= extract) as [data|e]]|];
    unfold populate, do_setex; cbv zeta;
    repeat match goal with |- context [if ?b then _ else _] => destruct b end;
    cbn [snd trace log advance]; rewrite !upstream_calls_app; cbn; lia.
Qed.

(** A lookup whose cache read succeeds and misses asks the provider exactly
    once. *)
Lemma miss_one_request (city country : string) (w : World) :
  redis_fails env (trace w ++ [EvRedisGet (cache_key city country)]) = false ->
  truth (cache_lookup (redis_db w) (now w) (cache_key city country)) = false ->
  upstream_calls (trace (snd (run env (fetch_weather city country) w)))
  = S (upstream_calls (trace w)).
Proof.
  intros Hup Hmiss. rewrite run_fetch_weather. cbv zeta. cbn [log trace].
  rewrite Hup, Hmiss, from_api_one_request. cbn [trace log].
  rewrite upstream_calls_app. cbn. lia.
Qed.

(** What reads as a miss keeps reading as a miss while only time passes. *)
Lemma miss_later (db : gmap string (string * Z)) (t t' : Z) (key : string) :
  truth (cache_lookup db t key) = false -> t <= t' ->
  truth (cache_lookup db t' key) = false.
Proof.
  unfold cache_lookup. intros Hmiss Hle.
  destruct (db !! key) as [[value expires]|]; [|reflexivity].
  destruct (Z.ltb_spec t' expires) as [Hlt|Hge]; [|reflexivity].
  destruct (Z.ltb_spec t expires) as [_|Hge]; [exact Hmiss|lia].
Qed.

(** An input that unpacks is not empty. *)
Lemma split_location_truth (info : string) (p : string * string) :
  split_location (Some info) = Returned p -> truth (Some info) = true.
Proof. destruct info; [discriminate|reflexivity]. Qed.

(** The route on an input that unpacks: the lookup, then the reply chosen
    from what the lookup returns. *)
Lemma run_weather_accepted (info city country : string) (w : World) :
  split_location (Some info) = Returned (city, country) ->
  run env (weather (Some info)) w =
  match run env (fetch_weather city country) w with
  | (Returned data, w') =>
      (Returned (if is_None data then Text could_not_fetch
                 else Rendered "weather_info.html" data), w')
  | (Raised e, w') => (Raised e, w')
  end.
Proof.
  intros Hsplit. unfold weather.
  rewrite (split_location_truth _ _ Hsplit), Hsplit. cbn [negb].
  rewrite run_bind. destruct (run env (fetch_weather city country) w) as [[data|e] w'];
    [|reflexivity].
  destruct (is_None data); reflexivity.
Qed.

End RunEquations.

(** ** The cache backend fails *)

Section CacheFailure.

Context {globals : Globals}.
Variable env : Env.

(** C2, as the code has it: an error of the cache backend is not absorbed.
    (1) When the read [client.get] fails, [fetch_weather] ends with the
    Redis connection error before any request to the provider. (2) When
    the read misses, the provider answers 200 with a complete payload and
    the write [client.setex] fails, [fetch_weather] ends with the Redis
    connection error although the provider was fetched from, and nothing
    is stored. *)
Theorem cache_errors_reach_the_caller (city country : string) (w : World) :
  let key := cache_key city country in
  let asked := trace w ++ [EvRedisGet key] in
  (redis_fails env asked = true ->
     run env (fetch_weather city country) w
     = (Raised RedisConnectionError, log (EvRedisGet key) w))
  /\
  (forall (elapsed : nat) (r : response) (data : json),
     redis_fails env asked = false ->
     truth (cache_lookup (redis_db w) (now w) key) = false ->
     http env (asked ++ [EvRequestsGet url (request_params city country)])
       = (elapsed, Responded r) ->
     status_code r = 200 ->
     response_json r ≫= extract = Returned data ->
     redis_fails env
       (asked ++ [EvRequestsGet url (request_params city country);
                  from_api_banner; EvPrint [data];
                  EvRedisSetex key cache_time (json_dumps data)]) = true ->
     exists w',
       run env (fetch_weather city country) w = (Raised RedisConnectionError, w')
       /\ upstream_calls (trace w') = S (upstream_calls (trace w))
       /\ redis_db w' = redis_db w).
Proof.
  intros key asked. subst asked. split.
  - intros Hdown. rewrite run_fetch_weather. cbv zeta. cbn [log trace].
    fold key. rewrite Hdown. reflexivity.
  - intros elapsed r data Hup Hmiss Hhttp Hstatus Hdata Hset.
    rewrite run_fetch_weather. cbv zeta. cbn [log trace].
    fold key. rewrite Hup, Hmiss.
    rewrite run_from_api. cbv zeta. cbn [log trace].
    rewrite Hhttp, Hstatus, Hdata. cbn [negb Z.eqb Pos.eqb].
    unfold populate, do_setex. cbv zeta. cbn [log trace advance].
    flatten_history. rewrite Hset.
    eexists. split; [reflexivity|]. cbn [trace redis_db log advance].
    split; [|reflexivity].
    rewrite !upstream_calls_app. cbn. lia.
Qed.

End CacheFailure.

(** The theorem of C2 applies: an outage on
    every call for the first part, a cache that refuses writes for the
    second. *)
Lemma cache_errors_reach_the_caller_witness :
  run Sample.cache_outage (@fetch_weather Sample.globals "hyderabad" "in") Sample.cold
  = (Raised RedisConnectionError,
     log (EvRedisGet "weather:hyderabad,in") Sample.cold)
  /\
  exists w',
    run Sample.cache_read_only (@fetch_weather Sample.globals "hyderabad" "in") Sample.cold
    = (Raised RedisConnectionError, w')
    /\ upstream_calls (trace w') = 1%nat
    /\ redis_db w' = ∅.
Proof.
  split.
  - apply (proj1 (@cache_errors_reach_the_caller Sample.globals Sample.cache_outage
                    "hyderabad" "in" Sample.cold)).
    reflexivity.
  - apply (proj2 (@cache_errors_reach_the_caller Sample.globals Sample.cache_read_only
                    "hyderabad" "in" Sample.cold)
             1%nat {| status_code := 200; payload := Some Sample.body |} Sample.record);
      reflexivity.
Defined.

(** C2 as stated fails: with Redis unreachable on every call and the
    provider healthy, a request to [/weather] does not succeed; it ends with
    the Redis connection error and the provider is never asked. *)
Lemma cache_outage_fails_the_lookup :
  fst (run Sample.cache_outage (@weather Sample.globals (Some "Hyderabad,IN")) Sample.cold)
  = Raised RedisConnectionError
  /\ upstream_calls
       (trace (snd (run Sample.cache_outage
                      (@weather Sample.globals (Some "Hyderabad,IN")) Sample.cold)))
     = 0%nat.
Proof. split; reflexivity. Qed.

(** ** The provider answers with a payload that lacks a field *)

(** Whatever else a payload holds, without ["main"] the second read of the
    dictionary literal raises. *)
Lemma extract_without_main (fields : list (string * json)) :
  assoc fields "main" = None ->
  extract (JObj fields) = Raised (KeyError "main").
Proof.
  intros Hmain. unfold extract. cbn [dict_get getitem].
  destruct (assoc fields "name"); cbn [mbind outcome_bind];
    rewrite Hmain; reflexivity.
Qed.

(** A payload that is not a dictionary fails at the first read. *)
Lemma extract_not_a_dict (body : json) :
  (forall fields, body <> JObj fields) ->
  extract body = Raised AttributeError.
Proof.
  intros Hbody. destruct body; try reflexivity. destruct (Hbody fields eq_refl).
Qed.

(** C3 on the code: only ["name"] is read with [.get]; the other fields are
    indexed. A 200 answer whose payload has no ["main"] ends the request with
    [KeyError: 'main'] instead of a record with unknown markers, while a
    payload that lacks only ["name"] gives a record whose name is [None] and
    whose zero readings stay the zeros the provider sent. *)
Theorem missing_field_raises :
  extract Sample.body_without_main = Raised (KeyError "main")
  /\ fst (run (Sample.provider_payload Sample.body_without_main)
            (@weather Sample.globals (Some "Hyderabad,IN")) Sample.cold)
     = Raised (KeyError "main")
  /\ extract Sample.body_without_name
     = Returned (JObj [("name", JNull);
                       ("temperature", JInt 0);
                       ("feels_like", JInt 0);
                       ("humidity", JInt 65);
                       ("pressure", JInt 1009);
                       ("wind", JInt 0);
                       ("clouds", JInt 0);
                       ("timezone", JInt 19800)]).
Proof. repeat split; reflexivity. Qed.

(** ** The provider answers with an error status *)

Section UpstreamFailure.

Context {globals : Globals}.
Variable env : Env.

(** C4: when the cache read misses and the provider answers with a status
    other than 200, [fetch_weather] returns [None], the database is the one
    it started from, the history holds no cache write, and the same lookup
    made again after any time has passed, Redis answering, asks the
    provider once more. *)
Theorem failed_lookup_is_not_cached
    (city country : string) (w : World) (elapsed : nat) (r : response) :
  let key := cache_key city country in
  redis_fails env (trace w ++ [EvRedisGet key]) = false ->
  truth (cache_lookup (redis_db w) (now w) key) = false ->
  http env (trace w ++ [EvRedisGet key;
                        EvRequestsGet url (request_params city country)])
    = (elapsed, Responded r) ->
  status_code r <> 200 ->
  exists w1,
    run env (fetch_weather city country) w = (Returned JNull, w1)
    /\ redis_db w1 = redis_db w
    /\ cache_writes (trace w1) = cache_writes (trace w)
    /\ forall dt,
         0 <= dt ->
         redis_fails env (trace w1 ++ [EvRedisGet key]) = false ->
         upstream_calls
           (trace (snd (run env (fetch_weather city country) (advance dt w1))))
         = S (upstream_calls (trace w1)).
Proof.
  intros key Hup Hmiss Hhttp Hstatus.
  rewrite run_fetch_weather. cbv zeta. cbn [log trace]. fold key.
  rewrite Hup, Hmiss, run_from_api. cbv zeta. cbn [log trace].
  flatten_history. rewrite Hhttp.
  apply Z.eqb_neq in Hstatus. rewrite Hstatus. cbn [negb].
  eexists. split; [reflexivity|]. cbn [redis_db trace log advance now].
  split; [reflexivity|]. split.
  - unfold cache_writes. rewrite !count_app. cbn. lia.
  - intros dt Hdt Hup'. apply miss_one_request.
    + exact Hup'.
    + cbn [redis_db now advance log]. fold key.
      apply (miss_later _ (now w)); [exact Hmiss|lia].
Qed.

(** C8, as the code has it: a failure of the provider is neither classified
    nor retried. For an input the route accepts whose cache read misses,
    the provider is asked exactly once; whatever status other than 200 it
    answers, 4xx or 5xx, the route replies with the one text
    [could_not_fetch]; and when the request fails in transport, the
    exception of [requests] ends the request. *)
Theorem upstream_failures_are_not_told_apart
    (info city country : string) (w : World) (elapsed : nat) (result : http_result) :
  let key := cache_key city country in
  split_location (Some info) = Returned (city, country) ->
  redis_fails env (trace w ++ [EvRedisGet key]) = false ->
  truth (cache_lookup (redis_db w) (now w) key) = false ->
  http env (trace w ++ [EvRedisGet key;
                        EvRequestsGet url (request_params city country)])
    = (elapsed, result) ->
  upstream_calls (trace (snd (run env (weather (Some info)) w)))
    = S (upstream_calls (trace w))
  /\ match result with
     | Responded r =>
         status_code r <> 200 ->
         fst (run env (weather (Some info)) w) = Returned (Text could_not_fetch)
     | Failed =>
         fst (run env (weather (Some info)) w) = Raised RequestException
     end.
Proof.
  intros key Hsplit Hup Hmiss Hhttp.
  rewrite (run_weather_accepted env info city country w Hsplit).
  split.
  - rewrite <- (miss_one_request env city country w Hup Hmiss).
    destruct (run env (fetch_weather city country) w) as [[data|e] w'];
      reflexivity.
  - rewrite run_fetch_weather. cbv zeta. cbn [log trace]. fold key.
    rewrite Hup, Hmiss, run_from_api. cbv zeta. cbn [log trace].
    flatten_history. rewrite Hhttp.
    destruct result as [r|]; [|reflexivity].
    intros Hstatus. apply Z.eqb_neq in Hstatus. rewrite Hstatus. reflexivity.
Qed.

End UpstreamFailure.

(** The theorem of C4 applies to a provider
    that answers 404 to a lookup on an empty cache. *)
Lemma failed_lookup_is_not_cached_witness :
  exists w1,
    run (Sample.provider_status 404) (@fetch_weather Sample.globals "atlantis" "xx")
      Sample.cold = (Returned JNull, w1)
    /\ redis_db w1 = ∅
    /\ cache_writes (trace w1) = 0%nat
    /\ forall dt,
         0 <= dt ->
         redis_fails (Sample.provider_status 404)
           (trace w1 ++ [EvRedisGet "weather:atlantis,xx"]) = false ->
         upstream_calls
           (trace (snd (run (Sample.provider_status 404)
                          (@fetch_weather Sample.globals "atlantis" "xx")
                          (advance dt w1))))
         = S (upstream_calls (trace w1)).
Proof.
  apply (@failed_lookup_is_not_cached Sample.globals (Sample.provider_status 404)
           "atlantis" "xx" Sample.cold 1%nat
           {| status_code := 404; payload := Some (JObj [("cod", JInt 404)]) |});
    [reflexivity | reflexivity | reflexivity | discriminate].
Defined.

(** The theorem of C8 applies, for a
    503 answer and for a transport failure. *)
Lemma upstream_failures_are_not_told_apart_witness :
  (upstream_calls
     (trace (snd (run (Sample.provider_status 503)
                    (@weather Sample.globals (Some "Hyderabad,IN")) Sample.cold)))
   = 1%nat
   /\ (503 <> 200 ->
       fst (run (Sample.provider_status 503)
              (@weather Sample.globals (Some "Hyderabad,IN")) Sample.cold)
       = Returned (Text could_not_fetch)))
  /\
  (upstream_calls
     (trace (snd (run Sample.provider_down
                    (@weather Sample.globals (Some "Hyderabad,IN")) Sample.cold)))
   = 1%nat
   /\ fst (run Sample.provider_down
             (@weather Sample.globals (Some "Hyderabad,IN")) Sample.cold)
      = Raised RequestException).
Proof.
  split.
  - apply (@upstream_failures_are_not_told_apart Sample.globals
             (Sample.provider_status 503) "Hyderabad,IN" "hyderabad" "in"
             Sample.cold 1%nat
             (Responded {| status_code := 503;
                           payload := Some (JObj [("cod", JInt 503)]) |}));
      reflexivity.
  - apply (@upstream_failures_are_not_told_apart Sample.globals
             Sample.provider_down "Hyderabad,IN" "hyderabad" "in"
             Sample.cold 30%nat Failed);
      reflexivity.
Defined.

(** C8 as stated fails: a provider that answers 503 to every request is
    asked once, not twice, and the caller reads the very text a 404 gives. *)
Lemma unavailable_reads_as_not_found :
  upstream_calls
    (trace (snd (run (Sample.provider_status 503)
                   (@weather Sample.globals (Some "Hyderabad,IN")) Sample.cold)))
  = 1%nat
  /\ fst (run (Sample.provider_status 503)
            (@weather Sample.globals (Some "Hyderabad,IN")) Sample.cold)
     = fst (run (Sample.provider_status 404)
              (@weather Sample.globals (Some "Hyderabad,IN")) Sample.cold).
Proof. split; reflexivity. Qed.

(** ** What the route accepts and refuses *)

Lemma cut_comma_None (s : string) :
  has_comma s = false -> PyStr.cut_comma s = None.
Proof.
  induction s as [|c s IH]; simpl; [reflexivity|].
  destruct (Ascii.eqb c PyStr.comma); simpl; [discriminate|].
  intros H. rewrite (IH H). reflexivity.
Qed.

Lemma cut_comma_Some (s : string) :
  has_comma s = true -> exists a b, PyStr.cut_comma s = Some (a, b).
Proof.
  induction s as [|c s IH]; simpl; [discriminate|].
  destruct (Ascii.eqb c PyStr.comma); simpl; [eauto|].
  intros H. destruct (IH H) as (a & b & ->). eauto.
Qed.

(** The history of a run starts with the history it was started from. *)
Lemma run_extends (env : Env) {A : Type} (p : prog A) (w : World) :
  exists rest, trace (snd (run env p w)) = trace w ++ rest.
Proof.
  revert w.
  induction p as [a|e|args k IH|name k IH|name time value k IH|u ps k IH];
    intros w; cbn [run].
  - exists []. cbn. rewrite app_nil_r. reflexivity.
  - exists []. cbn. rewrite app_nil_r. reflexivity.
  - destruct (IH (log (EvPrint args) w)) as [rest ->].
    cbn [log trace]. rewrite <- app_assoc. eauto.
  - unfold do_get. cbv zeta. destruct (redis_fails env _); [cbn; eauto|].
    match goal with |- context [run env (k ?v) ?w'] =>
      destruct (IH v w') as [rest ->] end.
    cbn [log trace]. rewrite <- app_assoc. eauto.
  - unfold do_setex. cbv zeta. destruct (redis_fails env _); [cbn; eauto|].
    destruct (time <=? 0); [cbn; eauto|].
    match goal with |- context [run env k ?w'] =>
      destruct (IH w') as [rest ->] end.
    cbn [log trace]. rewrite <- app_assoc. eauto.
  - unfold do_request. cbv zeta. destruct (http env _) as [elapsed [r|]].
    + match goal with |- context [run env (k r) ?w'] =>
        destruct (IH r w') as [rest ->] end.
      cbn [log trace advance]. rewrite <- app_assoc. eauto.
    + cbn. eauto.
Qed.

Section Route.

Context {globals : Globals}.
Variable env : Env.

(** C7, as the code has it: the route refuses what does not unpack, and
    nothing else. A request without a [city] parameter, or whose text holds
    no comma (the empty text included), is answered at once with one of the
    two validation texts, and the world is left as it was: no call to Redis
    and none to the provider is made. *)
Theorem malformed_request_is_refused (info : option string) (w : World) :
  malformed info = true ->
  run env (weather info) w
  = (Returned (Text (if truth info then invalid_format else invalid_input)), w)
  /\ cache_calls (trace (snd (run env (weather info) w))) = cache_calls (trace w)
  /\ upstream_calls (trace (snd (run env (weather info) w)))
     = upstream_calls (trace w).
Proof.
  intros Hbad.
  assert (Hrun : run env (weather info) w
                 = (Returned (Text (if truth info then invalid_format
                                    else invalid_input)), w)).
  { unfold weather. destruct (truth info) eqn:Htruth; [|reflexivity].
    destruct info as [s|]; [|discriminate].
    cbn [malformed] in Hbad. apply negb_true_iff in Hbad.
    cbn [negb split_location]. unfold location_parts, PyStr.split_comma_1.
    rewrite (cut_comma_None s Hbad). reflexivity. }
  rewrite Hrun. auto.
Qed.

(** C10: a text that is not empty and holds a comma passes the route's
    validation whatever stands around the comma: it unpacks into a city and
    a country, the request goes on to [fetch_weather], whose first call to
    the outside is the cache read of that pair's key, and on a miss the
    provider is asked. In particular [",in"] and ["hyderabad,"] unpack with
    an empty city and an empty country. *)
Theorem lax_validation (s : string) (w : World) :
  s <> EmptyString ->
  has_comma s = true ->
  (exists city country,
     split_location (Some s) = Returned (city, country)
     /\ route_key s = Some (cache_key city country)
     /\ (exists rest,
           trace (snd (run env (weather (Some s)) w))
           = trace w ++ EvRedisGet (cache_key city country) :: rest)
     /\ (redis_fails env (trace w ++ [EvRedisGet (cache_key city country)]) = false ->
         truth (cache_lookup (redis_db w) (now w) (cache_key city country)) = false ->
         upstream_calls (trace (snd (run env (weather (Some s)) w)))
         = S (upstream_calls (trace w))))
  /\ split_location (Some ",in") = Returned (EmptyString, "in")
  /\ split_location (Some "hyderabad,") = Returned ("hyderabad", EmptyString).
Proof.
  intros _ Hcomma. split; [|split; reflexivity].
  destruct (cut_comma_Some s Hcomma) as (a & b & Hcut).
  exists (PyStr.lower (PyStr.strip a)), (PyStr.lower (PyStr.strip b)).
  assert (Hsplit : split_location (Some s)
                   = Returned (PyStr.lower (PyStr.strip a),
                               PyStr.lower (PyStr.strip b))).
  { cbn [split_location]. unfold location_parts, PyStr.split_comma_1.
    rewrite Hcut. reflexivity. }
  split; [exact Hsplit|]. split; [unfold route_key; rewrite Hsplit; reflexivity|].
  rewrite (run_weather_accepted env s _ _ w Hsplit).
  set (city := PyStr.lower (PyStr.strip a)).
  set (country := PyStr.lower (PyStr.strip b)).
  split.
  - assert (Hfw : exists rest,
               trace (snd (run env (fetch_weather city country) w))
               = trace w ++ EvRedisGet (cache_key city country) :: rest).
    { rewrite run_fetch_weather. cbv zeta.
      destruct (redis_fails env _); [exists []; reflexivity|].
      destruct (truth _);
        match goal with |- context [run env ?p ?w'] =>
          destruct (run_extends env p w') as [rest ->] end;
        cbn [log trace]; rewrite <- app_assoc; eauto. }
    destruct (run env (fetch_weather city country) w) as [[data|e] w'];
      exact Hfw.
  - intros Hup Hmiss.
    rewrite <- (miss_one_request env city country w Hup Hmiss).
    destruct (run env (fetch_weather city country) w) as [[data|e] w'];
      reflexivity.
Qed.

End Route.

(** The theorem of C7 applies to a text
    without a comma. *)
Lemma malformed_request_is_refused_witness :
  run Sample.healthy (@weather Sample.globals (Some "Hyderabad")) Sample.cold
  = (Returned (Text invalid_format), Sample.cold)
  /\ cache_calls
       (trace (snd (run Sample.healthy (@weather Sample.globals (Some "Hyderabad"))
                      Sample.cold))) = 0%nat
  /\ upstream_calls
       (trace (snd (run Sample.healthy (@weather Sample.globals (Some "Hyderabad"))
                      Sample.cold))) = 0%nat.
Proof.
  apply (@malformed_request_is_refused Sample.globals Sample.healthy
           (Some "Hyderabad") Sample.cold).
  reflexivity.
Defined.

(** C7 as stated fails: [",in"] is not of the form City,Country, its city
    being empty, yet the route does not answer it with a validation text:
    it reads the cache, asks the provider and writes the cache. *)
Lemma empty_city_is_not_refused :
  spec_well_formed (Some ",in") = false
  /\ fst (run Sample.healthy (@weather Sample.globals (Some ",in")) Sample.cold)
     = Returned (Rendered "weather_info.html" Sample.record)
  /\ cache_calls
       (trace (snd (run Sample.healthy (@weather Sample.globals (Some ",in"))
                      Sample.cold))) = 2%nat
  /\ upstream_calls
       (trace (snd (run Sample.healthy (@weather Sample.globals (Some ",in"))
                      Sample.cold))) = 1%nat.
Proof. repeat split; reflexivity. Qed.

(** The theorem of C10 applies to [",in"]. *)
Lemma lax_validation_witness :
  exists city country,
    split_location (Some ",in") = Returned (city, country)
    /\ route_key ",in" = Some (cache_key city country)
    /\ (exists rest,
          trace (snd (run Sample.healthy (@weather Sample.globals (Some ",in"))
                        Sample.cold))
          = trace Sample.cold ++ EvRedisGet (cache_key city country) :: rest)
    /\ (redis_fails Sample.healthy
          (trace Sample.cold ++ [EvRedisGet (cache_key city country)]) = false ->
        truth (cache_lookup (redis_db Sample.cold) (now Sample.cold)
                 (cache_key city country)) = false ->
        upstream_calls
          (trace (snd (run Sample.healthy (@weather Sample.globals (Some ",in"))
                         Sample.cold)))
        = S (upstream_calls (trace Sample.cold))).
Proof.
  apply (proj1 (@lax_validation Sample.globals Sample.healthy ",in" Sample.cold
                  ltac:(discriminate) eq_refl)).
Defined.

(** ** The cache key of an input *)











Lemma append_nil (t : string) : EmptyString +:+ t = t.
Proof. reflexivity. Qed.

Lemma append_cons (c : ascii) (s t : string) :
  String c s +:+ t = String c (s +:+ t).
Proof. reflexivity. Qed.

(** Text concatenation is pushed through the head of the text. *)
Ltac push_append := rewrite ?append_cons, ?append_nil.

Lemma all_space_has_comma (s : string) :
  all_space s = true -> has_comma s = false.
Proof.
  induction s as [|c s IH]; simpl; [reflexivity|].
  intros [Hc Hs]%andb_true_iff. rewrite (IH Hs), orb_false_r.
  destruct (Ascii.eqb_spec c PyStr.comma) as [->|_]; [discriminate Hc|reflexivity].
Qed.

Lemma has_comma_app (s t : string) :
  has_comma (s +:+ t) = has_comma s || has_comma t.
Proof.
  induction s as [|c s IH]; push_append; simpl; [reflexivity|].
  rewrite IH, orb_assoc. reflexivity.
Qed.

Lemma cut_comma_app (x y : string) :
  has_comma x = false ->
  PyStr.cut_comma (x +:+ "," +:+ y) = Some (x, y).
Proof.
  change ("," +:+ y) with (String PyStr.comma y).
  induction x as [|c x IH]; push_append; simpl; [reflexivity|].
  intros [Hc Hx]%orb_false_iff. rewrite Hc, (IH Hx). reflexivity.
Qed.

Lemma lstrip_all_space (s : string) :
  all_space s = true -> PyStr.lstrip s = EmptyString.
Proof.
  induction s as [|c s IH]; simpl; [reflexivity|].
  intros [-> Hs]%andb_true_iff. exact (IH Hs).
Qed.

Lemma rstrip_all_space (s : string) :
  all_space s = true -> PyStr.rstrip s = EmptyString.
Proof.
  induction s as [|c s IH]; simpl; [reflexivity|].
  intros [-> Hs]%andb_true_iff. rewrite (IH Hs). reflexivity.
Qed.

Lemma lstrip_padding (l s : string) :
  all_space l = true -> PyStr.lstrip (l +:+ s) = PyStr.lstrip s.
Proof.
  induction l as [|c l IH]; push_append; simpl; [reflexivity|].
  intros [-> Hl]%andb_true_iff. exact (IH Hl).
Qed.

Lemma rstrip_padding (s r : string) :
  all_space r = true -> PyStr.rstrip (s +:+ r) = PyStr.rstrip s.
Proof.
  intros Hr. induction s as [|c s IH]; push_append; simpl.
  - apply rstrip_all_space, Hr.
  - rewrite IH. reflexivity.
Qed.

Lemma strip_padding (l s r : string) :
  all_space l = true -> all_space r = true ->
  PyStr.strip (l +:+ s +:+ r) = PyStr.strip s.
Proof.
  intros Hl Hr. unfold PyStr.strip. rewrite (lstrip_padding l _ Hl).
  clear l Hl. induction s as [|c s IH]; push_append; simpl.
  - rewrite (lstrip_all_space r Hr). reflexivity.
  - destruct (PyStr.isspace c); [exact IH|].
    rewrite <- append_cons. apply rstrip_padding, Hr.
Qed.




(** ** Cache hits and expiry *)

Lemma cache_lookup_store (db : gmap string (string * Z)) (stored t : Z)
    (name name' : string) (time : Z) (value : string) :
  cache_lookup (cache_store db stored name time value) t name'
  = if decide (name = name')
    then (if t <? stored + time then Some value else None)
    else cache_lookup db t name'.
Proof.
  unfold cache_lookup, cache_store. rewrite lookup_insert.
  destruct (decide (name = name')); reflexivity.
Qed.

Lemma truth_Some (cached_data : option string) :
  truth cached_data = true ->
  exists s, cached_data = Some s /\ s <> EmptyString.
Proof.
  destruct cached_data as [[|c s]|]; try discriminate.
  intros _. exists (String c s). split; [reflexivity|discriminate].
Qed.

Lemma truth_of_text (s : string) : s <> EmptyString -> truth (Some s) = true.
Proof. destruct s; [congruence|reflexivity]. Qed.

Section CacheHit.

Context {globals : Globals}.
Variable env : Env.

(** A live, non-empty entry answers the lookup: what is returned is the
    entry read back by [json.loads], the provider is not asked and the
    database is not written. *)
Lemma cache_hit (city country : string) (w : World) (cached : string) :
  redis_fails env (trace w ++ [EvRedisGet (cache_key city country)]) = false ->
  cache_lookup (redis_db w) (now w) (cache_key city country) = Some cached ->
  cached <> EmptyString ->
  exists w',
    run env (fetch_weather city country) w
    = (match json_loads cached with
       | Some data => Returned data
       | None => Raised JSONDecodeError
       end, w')
    /\ upstream_calls (trace w') = upstream_calls (trace w)
    /\ redis_db w' = redis_db w
    /\ now w' = now w.
Proof.
  intros Hup Hlive Htext.
  rewrite run_fetch_weather. cbv zeta. cbn [log trace].
  rewrite Hup, Hlive, (truth_of_text _ Htext), run_from_cache.
  destruct (json_loads cached) as [data|]; eexists;
    (split; [reflexivity|]); cbn [log trace redis_db now];
    rewrite !upstream_calls_app; cbn; auto with lia.
Qed.

(** A lookup that asked the provider and returned a record has written the
    record, serialized, under the pair's key, to expire [cache_time]
    seconds after the write. *)
Lemma fetched_record_is_stored (city country : string) (w w1 : World) (data : json) :
  run env (fetch_weather city country) w = (Returned data, w1) ->
  upstream_calls (trace w1) = S (upstream_calls (trace w)) ->
  data <> JNull ->
  0 < cache_time
  /\ redis_db w1
     = cache_store (redis_db w) (now w1) (cache_key city country)
         cache_time (json_dumps data).
Proof.
  rewrite run_fetch_weather. cbv zeta. cbn [log trace].
  destruct (redis_fails env _); [discriminate|].
  destruct (truth _) eqn:Htruth.
  - apply truth_Some in Htruth as (s & -> & _). rewrite run_from_cache.
    destruct (json_loads s); [|discriminate].
    intros [= <- <-]. cbn [log trace]. rewrite !upstream_calls_app. cbn. lia.
  - rewrite run_from_api. cbv zeta.
    destruct (http env _) as [elapsed [r|]]; [|discriminate].
    destruct (negb _); [intros [= <- <-] _ Hnull; congruence|].
    destruct (_ ≫= extract) as [data0|e]; [|discriminate].
    unfold populate, do_setex. cbv zeta.
    destruct (redis_fails env _); [discriminate|].
    destruct (Z.leb_spec cache_time 0) as [|Hpos]; [discriminate|].
    intros [= <- <-] _ _. split; [exact Hpos|reflexivity].
Qed.

(** C1: after a lookup that fetched a record from the provider, the same
    lookup made less than [cache_time] seconds later, Redis answering,
    returns that record, asks the provider nothing and leaves the database
    as it is; [json.loads] is taken to read back what [json.dumps] wrote
    for this record, and the text written is not empty. *)
Theorem cache_hit_short_circuit
    (city country : string) (w w1 : World) (data : json) (dt : Z) :
  run env (fetch_weather city country) w = (Returned data, w1) ->
  upstream_calls (trace w1) = S (upstream_calls (trace w)) ->
  data <> JNull ->
  0 <= dt < cache_time ->
  redis_fails env (trace w1 ++ [EvRedisGet (cache_key city country)]) = false ->
  json_dumps data <> EmptyString ->
  json_loads (json_dumps data) = Some data ->
  exists w2,
    run env (fetch_weather city country) (advance dt w1) = (Returned data, w2)
    /\ upstream_calls (trace w2) = upstream_calls (trace w1)
    /\ redis_db w2 = redis_db w1.
Proof.
  intros Hfirst Hasked Hrecord Hdt Hup Htext Hback.
  destruct (fetched_record_is_stored _ _ _ _ _ Hfirst Hasked Hrecord)
    as [_ Hdb].
  destruct (cache_hit city country (advance dt w1) (json_dumps data))
    as (w2 & Hrun & Hcalls & Hdb2 & _).
  - exact Hup.
  - cbn [advance redis_db now]. rewrite Hdb, cache_lookup_store.
    rewrite decide_True by reflexivity.
    destruct (Z.ltb_spec (now w1 + dt) (now w1 + cache_time)); [reflexivity|lia].
  - exact Htext.
  - rewrite Hback in Hrun. exists w2. auto.
Qed.

End CacheHit.

(** The theorem of C1 applies: a first lookup on an
    empty cache with a healthy provider, and a second one 299 seconds
    later. *)
Lemma cache_hit_short_circuit_witness :
  exists w2,
    run Sample.healthy (@fetch_weather Sample.globals "hyderabad" "in")
      (advance 299 (snd (run Sample.healthy
                           (@fetch_weather Sample.globals "hyderabad" "in")
                           Sample.cold)))
    = (Returned Sample.record, w2)
    /\ upstream_calls (trace w2) = 1%nat
    /\ redis_db w2
       = redis_db (snd (run Sample.healthy
                          (@fetch_weather Sample.globals "hyderabad" "in")
                          Sample.cold)).
Proof.
  apply (@cache_hit_short_circuit Sample.globals Sample.healthy
           "hyderabad" "in" Sample.cold
           (snd (run Sample.healthy (@fetch_weather Sample.globals "hyderabad" "in")
                   Sample.cold))
           Sample.record 299);
    try reflexivity; try discriminate.
  cbn. lia.
Defined.

Section Expiry.

Context {globals : Globals}.
Variable env : Env.

Lemma same_view_log (e : event) (w1 w2 : World) :
  same_view w1 w2 -> same_view (log e w1) (log e w2).
Proof.
  intros (Hnow & Htrace & Hdb). unfold same_view. cbn [log now trace redis_db].
  rewrite Htrace. auto.
Qed.

Lemma same_view_advance (dt : Z) (w1 w2 : World) :
  0 <= dt -> same_view w1 w2 -> same_view (advance dt w1) (advance dt w2).
Proof.
  intros Hdt (Hnow & Htrace & Hdb). unfold same_view.
  cbn [advance now trace redis_db]. rewrite Hnow. repeat split; [assumption|].
  intros t name Ht. apply Hdb. lia.
Qed.

(** No program can tell two such worlds apart: it ends the same way in
    both and leaves two worlds that again read alike. *)
Lemma run_same_view {A : Type} (p : prog A) (w1 w2 : World) :
  same_view w1 w2 ->
  fst (run env p w1) = fst (run env p w2)
  /\ same_view (snd (run env p w1)) (snd (run env p w2)).
Proof.
  revert w1 w2.
  induction p as [a|e|args k IH|name k IH|name time value k IH|u ps k IH];
    intros w1 w2 Hview; cbn [run].
  - split; [reflexivity|exact Hview].
  - split; [reflexivity|exact Hview].
  - apply IH, same_view_log, Hview.
  - pose proof (same_view_log (EvRedisGet name) _ _ Hview) as Hlog.
    unfold do_get. cbv zeta.
    destruct Hlog as (Hnow & Htrace & Hdb). rewrite <- Htrace.
    destruct (redis_fails env _).
    + split; [reflexivity|]. cbn [snd]. repeat split; assumption.
    + rewrite <- Hnow.
      rewrite <- (Hdb (now (log (EvRedisGet name) w1)) name) by lia.
      apply IH. repeat split; assumption.
  - pose proof (same_view_log (EvRedisSetex name time value) _ _ Hview) as Hlog.
    unfold do_setex. cbv zeta.
    destruct Hlog as (Hnow & Htrace & Hdb). rewrite <- Htrace.
    destruct (redis_fails env _);
      [split; [reflexivity|]; cbn [snd]; repeat split; assumption|].
    destruct (time <=? 0);
      [split; [reflexivity|]; cbn [snd]; repeat split; assumption|].
    apply IH. unfold same_view. cbn [now trace redis_db].
    repeat split; try assumption.
    intros t name' Ht. rewrite !cache_lookup_store, <- Hnow.
    destruct (decide (name = name')); [reflexivity|]. apply Hdb, Ht.
  - pose proof (same_view_log (EvRequestsGet u ps) _ _ Hview) as Hlog.
    unfold do_request. cbv zeta.
    destruct Hlog as (Hnow & Htrace & Hdb). rewrite <- Htrace.
    destruct (http env _) as [elapsed [r|]].
    + apply IH, same_view_advance; [lia|]. repeat split; assumption.
    + split; [reflexivity|]. cbn [snd].
      apply same_view_advance; [lia|]. repeat split; assumption.
Qed.

(** A world whose entry of [name] has expired reads like the world without
    that entry. *)
Lemma expired_same_view (name value : string) (expires : Z) (w : World) :
  redis_db w !! name = Some (value, expires) ->
  expires <= now w ->
  same_view w (forget name w).
Proof.
  intros Hentry Hexpired. unfold same_view, forget. cbn [now trace redis_db].
  repeat split. intros t name' Ht. unfold cache_lookup.
  destruct (decide (name = name')) as [<-|Hne].
  - rewrite Hentry, lookup_delete_eq.
    destruct (Z.ltb_spec t expires); [lia|reflexivity].
  - rewrite lookup_delete_ne by exact Hne. reflexivity.
Qed.

(** C5: an entry stored at [storedAt] with time-to-live [ttl] answers a
    read exactly while [now < storedAt + ttl]. From [storedAt + ttl] on, a
    lookup of its pair ends as it does in the world without the entry,
    with the same history and the same clock, and leaves a cache that reads
    the same from then on; and, Redis answering, it asks the provider. *)
Theorem expired_entry_reads_as_missing
    (city country : string) (w : World) (value : string) (storedAt ttl : Z) :
  let key := cache_key city country in
  redis_db w !! key = Some (value, storedAt + ttl) ->
  (cache_lookup (redis_db w) (now w) key = Some value <-> now w < storedAt + ttl)
  /\ (storedAt + ttl <= now w ->
      fst (run env (fetch_weather city country) w)
      = fst (run env (fetch_weather city country) (forget key w))
      /\ same_view (snd (run env (fetch_weather city country) w))
           (snd (run env (fetch_weather city country) (forget key w)))
      /\ (redis_fails env (trace w ++ [EvRedisGet key]) = false ->
          upstream_calls (trace (snd (run env (fetch_weather city country) w)))
          = S (upstream_calls (trace w)))).
Proof.
  intros key Hentry. split.
  - unfold cache_lookup. rewrite Hentry.
    destruct (Z.ltb_spec (now w) (storedAt + ttl)); split;
      (reflexivity || discriminate || lia).
  - intros Hexpired.
    pose proof (expired_same_view key value _ w Hentry Hexpired) as Hview.
    destruct (run_same_view (fetch_weather city country) _ _ Hview)
      as [Hout Hafter].
    split; [exact Hout|]. split; [exact Hafter|].
    intros Hup. apply miss_one_request; [exact Hup|].
    fold key. unfold cache_lookup. rewrite Hentry.
    destruct (Z.ltb_spec (now w) (storedAt + ttl)); [lia|reflexivity].
Qed.

End Expiry.

(** The theorem of C5 applies to the entry a
    first lookup stored at time 1 for 300 seconds, read at time 302. *)
Lemma expired_entry_reads_as_missing_witness :
  let w := advance 301 (snd (run Sample.healthy
                               (@fetch_weather Sample.globals "hyderabad" "in")
                               Sample.cold)) in
  let key := cache_key "hyderabad" "in" in
  (cache_lookup (redis_db w) (now w) key = Some (Sample.dumps Sample.record)
   <-> now w < 1 + 300)
  /\ (1 + 300 <= now w ->
      fst (run Sample.healthy (@fetch_weather Sample.globals "hyderabad" "in") w)
      = fst (run Sample.healthy (@fetch_weather Sample.globals "hyderabad" "in")
               (forget key w))
      /\ same_view
           (snd (run Sample.healthy (@fetch_weather Sample.globals "hyderabad" "in") w))
           (snd (run Sample.healthy (@fetch_weather Sample.globals "hyderabad" "in")
                   (forget key w)))
      /\ (redis_fails Sample.healthy (trace w ++ [EvRedisGet key]) = false ->
          upstream_calls
            (trace (snd (run Sample.healthy
                           (@fetch_weather Sample.globals "hyderabad" "in") w)))
          = S (upstream_calls (trace w)))).
Proof.
  intros w key.
  apply (@expired_entry_reads_as_missing Sample.globals Sample.healthy
           "hyderabad" "in" w (Sample.dumps Sample.record) 1 300).
  reflexivity.
Defined.

(** ** Several lookups of one cold key *)

Lemma insert_middle {A : Type} (pre : list A) (x y : A) (rest : list A) :
  <[length pre := y]> (pre ++ x :: rest) = pre ++ y :: rest.
Proof.
  rewrite insert_app_r_alt by reflexivity. rewrite Nat.sub_diag. reflexivity.
Qed.

Lemma run_schedule_app (env : Env) {A : Type} (s1 s2 : list nat)
    (pool : list (prog A)) (w : World) :
  run_schedule env (s1 ++ s2) pool w
  = let '(pool', w') := run_schedule env s1 pool w in run_schedule env s2 pool' w'.
Proof.
  revert pool w. induction s1 as [|i s1 IH]; intros pool w; cbn.
  - reflexivity.
  - destruct (step_at env i pool w) as [pool' w']. apply IH.
Qed.

Section Stampede.

Context {globals : Globals}.
Variable env : Env.

Lemma step_fetch_weather_miss (city country : string) (w : World) :
  redis_fails env (trace w ++ [EvRedisGet (cache_key city country)]) = false ->
  truth (cache_lookup (redis_db w) (now w) (cache_key city country)) = false ->
  step env (fetch_weather city country) w
  = (from_api (cache_key city country) city country,
     log (EvRedisGet (cache_key city country)) w).
Proof.
  intros Hup Hmiss. unfold fetch_weather, client_get.
  cbn [mbind prog_bind bind step]. unfold do_get. cbv zeta.
  cbn [log trace redis_db now]. rewrite Hup, Hmiss. reflexivity.
Qed.

Lemma step_from_api (key city country : string) (w : World) :
  upstream_calls (trace (snd (step env (from_api key city country) w)))
  = S (upstream_calls (trace w)).
Proof.
  unfold from_api, requests_get.
  cbn [mbind prog_bind bind step]. unfold do_request. cbv zeta.
  destruct (http env _) as [elapsed [r|]]; cbn [snd trace log advance];
    rewrite upstream_calls_app; cbn; lia.
Qed.

(** First round: every caller reads the cache before anyone has written
    it, and every read misses. *)
Lemma round_of_reads (city country : string) (m : nat) :
  (forall h, redis_fails env h = false) ->
  forall (pre : list (prog json)) (w : World),
    truth (cache_lookup (redis_db w) (now w) (cache_key city country)) = false ->
    run_schedule env (seq (length pre) m)
      (pre ++ replicate m (fetch_weather city country)) w
    = (pre ++ replicate m (from_api (cache_key city country) city country),
       {| now := now w; redis_db := redis_db w;
          trace := trace w ++ replicate m (EvRedisGet (cache_key city country)) |}).
Proof.
  intros Hup. induction m as [|m IH]; intros pre w Hmiss.
  - cbn. rewrite !app_nil_r. destruct w; reflexivity.
  - cbn [seq replicate run_schedule]. unfold step_at.
    rewrite list_lookup_middle by reflexivity.
    rewrite (step_fetch_weather_miss city country w (Hup _) Hmiss).
    rewrite insert_middle.
    rewrite (cons_middle (from_api _ _ _)), app_assoc.
    replace (S (length pre))
      with (length (pre ++ [from_api (cache_key city country) city country]))
      by (rewrite length_app; cbn; lia).
    rewrite IH by exact Hmiss.
    cbn [log now redis_db trace]. rewrite <- !app_assoc. reflexivity.
Qed.

(** Second round: every caller that missed asks the provider. *)
Lemma round_of_requests (key city country : string) (m : nat) :
  forall (pre : list (prog json)) (w : World),
    upstream_calls
      (trace (snd (run_schedule env (seq (length pre) m)
                     (pre ++ replicate m (from_api key city country)) w)))
    = (upstream_calls (trace w) + m)%nat.
Proof.
  induction m as [|m IH]; intros pre w.
  - cbn. lia.
  - cbn [seq replicate run_schedule]. unfold step_at.
    rewrite list_lookup_middle by reflexivity.
    pose proof (step_from_api key city country w) as Hstep.
    destruct (step env (from_api key city country) w) as [p' w'].
    cbn [snd] in Hstep. rewrite insert_middle.
    rewrite (cons_middle p'), app_assoc.
    replace (S (length pre)) with (length (pre ++ [p']))
      by (rewrite length_app; cbn; lia).
    rewrite IH, Hstep. lia.
Qed.

End Stampede.

Lemma total_nonneg (gaps : list Z) : Forall (fun g => 0 <= g) gaps -> 0 <= total gaps.
Proof. induction 1 as [|g gaps Hg _ IH]; cbn; lia. Qed.

Section ColdKey.

Context {globals : Globals}.
Variable env : Env.
Hypothesis redis_up : forall h, redis_fails env h = false.

(** A lookup that misses, gets a complete payload from the provider and
    can write: the record is returned and stored for [cache_time]
    seconds. *)
Lemma cold_lookup_populates
    (city country : string) (w : World) (elapsed : nat) (r : response) (data : json) :
  truth (cache_lookup (redis_db w) (now w) (cache_key city country)) = false ->
  http env (trace w ++ [EvRedisGet (cache_key city country);
                        EvRequestsGet url (request_params city country)])
    = (elapsed, Responded r) ->
  status_code r = 200 ->
  response_json r ≫= extract = Returned data ->
  0 < cache_time ->
  exists w1,
    run env (fetch_weather city country) w = (Returned data, w1)
    /\ redis_db w1 !! cache_key city country
       = Some (json_dumps data, now w1 + cache_time)
    /\ upstream_calls (trace w1) = S (upstream_calls (trace w)).
Proof.
  intros Hmiss Hhttp Hstatus Hdata Hpos.
  rewrite run_fetch_weather. cbv zeta. cbn [log trace].
  rewrite redis_up, Hmiss, run_from_api. cbv zeta. cbn [log trace].
  flatten_history. rewrite Hhttp, Hstatus, Hdata. cbn [negb Z.eqb Pos.eqb].
  unfold populate, do_setex. cbv zeta. rewrite redis_up.
  destruct (Z.leb_spec cache_time 0); [lia|].
  eexists. split; [reflexivity|]. cbn [redis_db now trace log advance].
  split; [apply lookup_insert_eq|].
  rewrite !upstream_calls_app. cbn. lia.
Qed.

(** Lookups that arrive one after the other while the entry lives are all
    answered from the cache. *)
Lemma hits_in_turn (city country : string) (data : json) (expires : Z)
    (gaps : list Z) :
  json_dumps data <> EmptyString ->
  json_loads (json_dumps data) = Some data ->
  Forall (fun g => 0 <= g) gaps ->
  forall w : World,
    redis_db w !! cache_key city country = Some (json_dumps data, expires) ->
    now w + total gaps < expires ->
    exists w',
      serve_in_turn env (map (fun g => (g, fetch_weather city country)) gaps) w
      = (replicate (length gaps) (Returned data), w')
      /\ upstream_calls (trace w') = upstream_calls (trace w).
Proof.
  intros Htext Hback. induction 1 as [|g gaps Hg Hgaps IH]; intros w Hentry Hlive.
  - exists w. split; reflexivity.
  - pose proof (total_nonneg gaps Hgaps) as Hrest. cbn [total] in Hlive.
    destruct (cache_hit env city country (advance g w) (json_dumps data))
      as (w1 & Hrun & Hcalls & Hdb & Hnow).
    + apply redis_up.
    + cbn [advance redis_db now]. unfold cache_lookup. rewrite Hentry.
      destruct (Z.ltb_spec (now w + g) expires); [reflexivity|lia].
    + exact Htext.
    + rewrite Hback in Hrun.
      destruct (IH w1) as (w' & Hserve & Hcalls').
      * rewrite Hdb. exact Hentry.
      * rewrite Hnow. cbn [advance now]. lia.
      * exists w'. cbn [map serve_in_turn length replicate].
        rewrite Hrun, Hserve. split; [reflexivity|].
        rewrite Hcalls', Hcalls. reflexivity.
Qed.

(** C9, as the code has it: nothing coordinates lookups of one key. Served
    one after the other within [cache_time] seconds of the first write,
    lookups of a cold key cost one request to the provider and every
    caller gets the same record. Served at once, so that every caller
    reads the cache before any caller has written it, each of the [n]
    callers sends its own request to the provider. *)
Theorem lookups_of_a_cold_key
    (city country : string) (w : World) (elapsed : nat) (r : response)
    (data : json) (gap : Z) (gaps : list Z) (n : nat) :
  let key := cache_key city country in
  truth (cache_lookup (redis_db w) (now w) key) = false ->
  0 <= gap ->
  http env (trace w ++ [EvRedisGet key;
                        EvRequestsGet url (request_params city country)])
    = (elapsed, Responded r) ->
  status_code r = 200 ->
  response_json r ≫= extract = Returned data ->
  json_dumps data <> EmptyString ->
  json_loads (json_dumps data) = Some data ->
  Forall (fun g => 0 <= g) gaps ->
  total gaps < cache_time ->
  (exists w',
     serve_in_turn env
       (map (fun g => (g, fetch_weather city country)) (gap :: gaps)) w
     = (replicate (S (length gaps)) (Returned data), w')
     /\ upstream_calls (trace w') = S (upstream_calls (trace w)))
  /\ upstream_calls
       (trace (snd (run_schedule env (seq 0 n ++ seq 0 n)
                      (replicate n (fetch_weather city country)) w)))
     = (upstream_calls (trace w) + n)%nat.
Proof.
  intros key Hmiss Hgap Hhttp Hstatus Hdata Htext Hback Hgaps Hwindow.
  subst key. pose proof (total_nonneg gaps Hgaps) as Hrest. split.
  - destruct (cold_lookup_populates city country (advance gap w) elapsed r data)
      as (w1 & Hrun & Hentry & Hcalls); try assumption.
    + cbn [advance redis_db now].
      apply (miss_later _ (now w)); [exact Hmiss|lia].
    + lia.
    + destruct (hits_in_turn city country data (now w1 + cache_time) gaps
                  Htext Hback Hgaps w1 Hentry) as (w' & Hserve & Hcalls');
        [lia|].
      exists w'. cbn [map serve_in_turn replicate].
      rewrite Hrun, Hserve. split; [reflexivity|].
      rewrite Hcalls', Hcalls. reflexivity.
  - rewrite run_schedule_app.
    pose proof (round_of_reads env city country n redis_up [] w Hmiss) as Hreading.
    cbn [length app] in Hreading. rewrite Hreading.
    match goal with |- context [run_schedule env _ _ ?w1] =>
      pose proof (round_of_requests env (cache_key city country) city country
                    n [] w1) as Hasking
    end.
    cbn [length app] in Hasking. rewrite Hasking.
    cbn [trace]. rewrite upstream_calls_app.
    assert (Hreads : forall m,
               upstream_calls (replicate m (EvRedisGet (cache_key city country))) = O).
    { induction m; [reflexivity|assumption]. }
    rewrite Hreads. lia.
Qed.

End ColdKey.

(** The theorem of C9 applies: three lookups in turn
    100 seconds apart, and three lookups at once, on an empty cache with a
    healthy provider. *)
Lemma lookups_of_a_cold_key_witness :
  (exists w',
     serve_in_turn Sample.healthy
       (map (fun g => (g, @fetch_weather Sample.globals "hyderabad" "in"))
          [0; 100; 100]) Sample.cold
     = (replicate 3 (Returned Sample.record), w')
     /\ upstream_calls (trace w') = 1%nat)
  /\ upstream_calls
       (trace (snd (run_schedule Sample.healthy (seq 0 3 ++ seq 0 3)
                      (replicate 3 (@fetch_weather Sample.globals "hyderabad" "in"))
                      Sample.cold)))
     = 3%nat.
Proof.
  apply (@lookups_of_a_cold_key Sample.globals Sample.healthy
           (fun _ => eq_refl) "hyderabad" "in" Sample.cold 1%nat
           {| status_code := 200; payload := Some Sample.body |}
           Sample.record 0 [100; 100] 3%nat);
    try reflexivity; try discriminate; try lia.
  repeat constructor; lia.
Defined.

(** C9 as stated fails: two lookups of one cold key served at once, each
    reading the cache before the other has written it, both end with the
    record, and the provider has been asked twice. *)
Lemma overlapping_lookups_fetch_twice :
  run_schedule Sample.healthy [0; 1; 0; 1; 0; 0; 0; 1; 1; 1]%nat
    [@fetch_weather Sample.globals "hyderabad" "in";
     @fetch_weather Sample.globals "hyderabad" "in"] Sample.cold
  = ([Ret Sample.record; Ret Sample.record],
     snd (run_schedule Sample.healthy [0; 1; 0; 1; 0; 0; 0; 1; 1; 1]%nat
            [@fetch_weather Sample.globals "hyderabad" "in";
             @fetch_weather Sample.globals "hyderabad" "in"] Sample.cold))
  /\ upstream_calls
       (trace (snd (run_schedule Sample.healthy [0; 1; 0; 1; 0; 0; 0; 1; 1; 1]%nat
                      [@fetch_weather Sample.globals "hyderabad" "in";
                       @fetch_weather Sample.globals "hyderabad" "in"] Sample.cold)))
     = 2%nat.
Proof. split; reflexivity. Qed.

(** * Further properties of the code *)

(** ** What [fetch_weather] takes from a payload *)

Lemma getitem_field (obj : json) (key : string) (v : json) :
  getitem obj key = Returned v <-> field obj key = Some v.
Proof.
  destruct obj; cbn; try (split; discriminate).
  destruct (assoc fields key); split; congruence.
Qed.

Lemma getitem2_at_path (body : json) (k1 k2 : string) (v : json) :
  getitem body k1 ≫= (fun m => getitem m k2) = Returned v
  <-> at_path body [k1; k2] = Some v.
Proof.
  cbn [at_path]. destruct (getitem body k1) as [m|e] eqn:Hm; cbn [mbind outcome_bind].
  - apply getitem_field in Hm. rewrite Hm, getitem_field.
    destruct (field m k2); split; congruence.
  - split; [discriminate|]. destruct (field body k1) as [m|] eqn:Hf; [|discriminate].
    apply getitem_field in Hf. congruence.
Qed.

(** X1. The record is built exactly from a dictionary that holds the seven
    readings, each taken from its place in the payload; only the name may
    be absent, and then it is [None]. *)
Theorem extract_exactly (body data : json) :
  extract body = Returned data
  <->
  exists fields temperature feels_like humidity pressure wind clouds timezone,
    body = JObj fields
    /\ at_path body ["main"; "temp"] = Some temperature
    /\ at_path body ["main"; "feels_like"] = Some feels_like
    /\ at_path body ["main"; "humidity"] = Some humidity
    /\ at_path body ["main"; "pressure"] = Some pressure
    /\ at_path body ["wind"; "speed"] = Some wind
    /\ at_path body ["clouds"; "all"] = Some clouds
    /\ at_path body ["timezone"] = Some timezone
    /\ data = JObj [("name", default JNull (assoc fields "name"));
                    ("temperature", temperature);
                    ("feels_like", feels_like);
                    ("humidity", humidity);
                    ("pressure", pressure);
                    ("wind", wind);
                    ("clouds", clouds);
                    ("timezone", timezone)].
Proof.
  unfold extract. split.
  - destruct (dict_get body "name") as [name|e] eqn:Hname;
      cbn [mbind outcome_bind]; [|discriminate].
    destruct (getitem body "main" ≫= (fun m => getitem m "temp"))
      as [t|e] eqn:Ht; cbn [mbind outcome_bind]; [|discriminate].
    destruct (getitem body "main" ≫= (fun m => getitem m "feels_like"))
      as [f|e] eqn:Hf; cbn [mbind outcome_bind]; [|discriminate].
    destruct (getitem body "main" ≫= (fun m => getitem m "humidity"))
      as [h|e] eqn:Hh; cbn [mbind outcome_bind]; [|discriminate].
    destruct (getitem body "main" ≫= (fun m => getitem m "pressure"))
      as [p|e] eqn:Hp; cbn [mbind outcome_bind]; [|discriminate].
    destruct (getitem body "wind" ≫= (fun m => getitem m "speed"))
      as [ws|e] eqn:Hw; cbn [mbind outcome_bind]; [|discriminate].
    destruct (getitem body "clouds" ≫= (fun m => getitem m "all"))
      as [c|e] eqn:Hc; cbn [mbind outcome_bind]; [|discriminate].
    destruct (getitem body "timezone") as [tz|e] eqn:Htz;
      cbn [mbind outcome_bind]; [|discriminate].
    intros [= <-].
    apply getitem2_at_path in Ht, Hf, Hh, Hp, Hw, Hc.
    apply getitem_field in Htz.
    destruct body; try discriminate Hname.
    exists fields, t, f, h, p, ws, c, tz.
    split; [reflexivity|]. do 6 (split; [assumption|]). split.
    + cbn [at_path]. rewrite Htz. reflexivity.
    + cbn [dict_get] in Hname. destruct (assoc fields "name");
        injection Hname as <-; reflexivity.
  - intros (fields & t & f & h & p & ws & c & tz & -> & Ht & Hf & Hh & Hp & Hw & Hc
            & Htz & ->).
    apply getitem2_at_path in Ht, Hf, Hh, Hp, Hw, Hc.
    rewrite Ht, Hf, Hh, Hp, Hw, Hc.
    cbn [at_path field] in Htz. cbn [dict_get getitem].
    destruct (assoc fields "timezone") as [tz'|]; [|discriminate].
    injection Htz as ->.
    destruct (assoc fields "name"); reflexivity.
Qed.

Lemma getitem_failure (obj : json) (key : string) (e : exn) :
  getitem obj key = Raised e ->
  (e = TypeError /\ is_dict obj = false)
  \/ (e = KeyError key /\ is_dict obj = true /\ field obj key = None).
Proof.
  destruct obj; cbn; try (intros [= <-]; left; split; reflexivity).
  destruct (assoc fields key); [discriminate|].
  intros [= <-]. right. repeat split; reflexivity.
Qed.

Lemma getitem2_failure (body : json) (k1 k2 : string) (e : exn) :
  is_dict body = true ->
  getitem body k1 ≫= (fun m => getitem m k2) = Raised e ->
  (e = KeyError k1 /\ field body k1 = None)
  \/ (exists m, field body k1 = Some m
        /\ ((e = TypeError /\ is_dict m = false)
            \/ (e = KeyError k2 /\ is_dict m = true /\ field m k2 = None))).
Proof.
  intros Hdict. destruct (getitem body k1) as [m|e1] eqn:Hm;
    cbn [mbind outcome_bind].
  - intros Hfail. right. exists m. split; [apply getitem_field, Hm|].
    apply getitem_failure, Hfail.
  - intros [= <-]. left.
    destruct (getitem_failure _ _ _ Hm) as [[_ Hno]|(-> & _ & Hnone)];
      [congruence|split; [reflexivity|exact Hnone]].
Qed.



(** X2. How building the record fails: [AttributeError] on a payload that is
    not a dictionary; [TypeError] when ["main"], ["wind"] or ["clouds"] is
    there and is not a dictionary; [KeyError] of the key that is missing,
    at the top or inside one of the three. Nothing else is raised. *)
Theorem extract_failures (body : json) (e : exn) :
  extract body = Raised e ->
  (e = AttributeError /\ is_dict body = false)
  \/ (is_dict body = true
      /\ exists container m,
           In container ["main"; "wind"; "clouds"]
           /\ field body container = Some m
           /\ is_dict m = false /\ e = TypeError)
  \/ (is_dict body = true
      /\ exists key,
           In key ["main"; "wind"; "clouds"; "timezone"]
           /\ field body key = None /\ e = KeyError key)
  \/ (is_dict body = true
      /\ exists container key m,
           In (container, key)
             [("main", "temp"); ("main", "feels_like"); ("main", "humidity");
              ("main", "pressure"); ("wind", "speed"); ("clouds", "all")]
           /\ field body container = Some m
           /\ is_dict m = true /\ field m key = None /\ e = KeyError key).
Proof.
  unfold extract.
  destruct (is_dict body) eqn:Hdict.
  2:{ destruct body; try discriminate Hdict;
        cbn; intros [= <-]; left; split; reflexivity. }
  assert (Hstage : forall k1 k2 e',
             In k1 ["main"; "wind"; "clouds"] ->
             In (k1, k2)
               [("main", "temp"); ("main", "feels_like"); ("main", "humidity");
                ("main", "pressure"); ("wind", "speed"); ("clouds", "all")] ->
             getitem body k1 ≫= (fun m => getitem m k2) = Raised e' ->
             (e' = AttributeError /\ true = false)
             \/ (true = true
                 /\ exists container m,
                      In container ["main"; "wind"; "clouds"]
                      /\ field body container = Some m
                      /\ is_dict m = false /\ e' = TypeError)
             \/ (true = true
                 /\ exists key,
                      In key ["main"; "wind"; "clouds"; "timezone"]
                      /\ field body key = None /\ e' = KeyError key)
             \/ (true = true
                 /\ exists container key m,
                      In (container, key)
                        [("main", "temp"); ("main", "feels_like");
                         ("main", "humidity"); ("main", "pressure");
                         ("wind", "speed"); ("clouds", "all")]
                      /\ field body container = Some m
                      /\ is_dict m = true /\ field m key = None
                      /\ e' = KeyError key)).
  { intros k1 k2 e' Hk1 Hk12 Hfail.
    destruct (getitem2_failure body k1 k2 e' Hdict Hfail)
      as [[-> Hnone]|(m & Hm & [[-> Hno]|(-> & Hyes & Hnone)])].
    - right. right. left. split; [reflexivity|]. exists k1.
      split; [cbn in *; tauto|]. split; [exact Hnone|reflexivity].
    - right. left. split; [reflexivity|]. exists k1, m. auto.
    - right. right. right. split; [reflexivity|]. exists k1, k2, m. auto. }
  destruct (dict_get body "name") as [name|e0] eqn:Hname;
    cbn [mbind outcome_bind].
  2:{ destruct body; try discriminate Hdict. cbn in Hname.
      destruct (assoc fields "name"); discriminate Hname. }
  destruct (getitem body "main" ≫= (fun m => getitem m "temp"))
    as [t|e1] eqn:Ht; cbn [mbind outcome_bind].
  2:{ intros [= <-]. apply (Hstage "main" "temp"); [cbn; tauto..|exact Ht]. }
  destruct (getitem body "main" ≫= (fun m => getitem m "feels_like"))
    as [f|e1] eqn:Hf; cbn [mbind outcome_bind].
  2:{ intros [= <-]. apply (Hstage "main" "feels_like"); [cbn; tauto..|exact Hf]. }
  destruct (getitem body "main" ≫= (fun m => getitem m "humidity"))
    as [h|e1] eqn:Hh; cbn [mbind outcome_bind].
  2:{ intros [= <-]. apply (Hstage "main" "humidity"); [cbn; tauto..|exact Hh]. }
  destruct (getitem body "main" ≫= (fun m => getitem m "pressure"))
    as [p|e1] eqn:Hp; cbn [mbind outcome_bind].
  2:{ intros [= <-]. apply (Hstage "main" "pressure"); [cbn; tauto..|exact Hp]. }
  destruct (getitem body "wind" ≫= (fun m => getitem m "speed"))
    as [ws|e1] eqn:Hw; cbn [mbind outcome_bind].
  2:{ intros [= <-]. apply (Hstage "wind" "speed"); [cbn; tauto..|exact Hw]. }
  destruct (getitem body "clouds" ≫= (fun m => getitem m "all"))
    as [c|e1] eqn:Hc; cbn [mbind outcome_bind].
  2:{ intros [= <-]. apply (Hstage "clouds" "all"); [cbn; tauto..|exact Hc]. }
  destruct (getitem body "timezone") as [tz|e1] eqn:Htz;
    cbn [mbind outcome_bind]; [discriminate|].
  intros [= <-].
  destruct (getitem_failure _ _ _ Htz) as [[_ Hno]|(-> & _ & Hnone)];
    [congruence|].
  right. right. left. split; [reflexivity|]. exists "timezone".
  split; [cbn; tauto|]. split; [exact Hnone|reflexivity].
Qed.

(** The theorem on failures applies to the payload without ["main"]. *)
Lemma extract_failures_witness :
  (KeyError "main" = AttributeError /\ is_dict Sample.body_without_main = false)
  \/ (is_dict Sample.body_without_main = true
      /\ exists container m,
           In container ["main"; "wind"; "clouds"]
           /\ field Sample.body_without_main container = Some m
           /\ is_dict m = false /\ KeyError "main" = TypeError)
  \/ (is_dict Sample.body_without_main = true
      /\ exists key,
           In key ["main"; "wind"; "clouds"; "timezone"]
           /\ field Sample.body_without_main key = None
           /\ KeyError "main" = KeyError key)
  \/ (is_dict Sample.body_without_main = true
      /\ exists container key m,
           In (container, key)
             [("main", "temp"); ("main", "feels_like"); ("main", "humidity");
              ("main", "pressure"); ("wind", "speed"); ("clouds", "all")]
           /\ field Sample.body_without_main container = Some m
           /\ is_dict m = true /\ field m key = None
           /\ KeyError "main" = KeyError key).
Proof.
  apply (extract_failures Sample.body_without_main (KeyError "main")).
  reflexivity.
Defined.

(** ** One lookup, case by case *)

Lemma extract_record (body data : json) :
  extract body = Returned data -> is_record data.
Proof.
  intros Hextract. unfold extract in Hextract.
  repeat match type of Hextract with
         | context [mbind ?f ?m] =>
             destruct m; cbn [mbind outcome_bind] in Hextract;
             try discriminate Hextract
         end.
  injection Hextract as <-. eexists. split; reflexivity.
Qed.

Lemma payload_record (r : response) (data : json) :
  response_json r ≫= extract = Returned data -> is_record data.
Proof.
  unfold response_json. destruct (payload r) as [body|];
    cbn [mbind outcome_bind]; [apply extract_record|discriminate].
Qed.

(** Opens the run of a lookup into its ways of ending: the cache read fails;
    the cache answers and the text decodes or does not; the request fails,
    is refused, brings a payload that does not give a record; the write
    fails or is refused; the record is written. *)
Ltac lookup_cases :=
  rewrite run_fetch_weather; cbv zeta;
  match goal with
  | |- context [redis_fails ?e ?h] => destruct (redis_fails e h) eqn:Hread
  end;
  [ | let Htruth := fresh "Htruth" in
      destruct (truth _) eqn:Htruth;
      [ let s := fresh "cached" in
        let Hs := fresh "Hcached" in
        let Hne := fresh "Hnonempty" in
        apply truth_Some in Htruth as (s & Hs & Hne);
        rewrite Hs, run_from_cache;
        destruct (json_loads s) eqn:Hloads
      | rewrite run_from_api; cbv zeta;
        destruct (http _ _) as [elapsed [r|]] eqn:Hhttp;
        [ destruct (negb (status_code r =? 200)) eqn:Hstatus;
          [ | destruct (response_json r ≫= extract) as [data|e] eqn:Hextract;
              [ unfold populate, do_setex; cbv zeta;
                match goal with
                | |- context [redis_fails ?e ?h] =>
                    destruct (redis_fails e h) eqn:Hwrite
                end;
                [ | destruct (Z.leb_spec cache_time 0) as [Httl|Httl] ]
              | ] ]
        | ] ] ];
  cbn [fst snd trace redis_db now log advance].

Section OneLookup.

Context {globals : Globals}.
Variable env : Env.

(** The calls of a lookup, in order: the cache read, then nothing, or the
    prints of a hit, or the request followed by the error print or by the
    prints and the write of a fetched record. *)
Lemma fetch_weather_history (city country : string) (w : World) :
  let key := cache_key city country in
  let request := EvRequestsGet url (request_params city country) in
  exists rest,
    trace (snd (run env (fetch_weather city country) w))
    = trace w ++ EvRedisGet key :: rest
    /\ (rest = []
        \/ rest = [from_cache_banner]
        \/ (exists data, rest = [from_cache_banner; EvPrint [data]])
        \/ rest = [request]
        \/ (exists status,
              status <> 200
              /\ rest = [request; EvPrint [JStr "API Error:"; JInt status]])
        \/ (exists data,
              is_record data
              /\ rest = [request; from_api_banner; EvPrint [data];
                         EvRedisSetex key cache_time (json_dumps data)])).
Proof.
  intros key request. subst key request. lookup_cases; flatten_history;
    eexists; (split; [reflexivity|]).
  - auto.
  - do 2 right. left. eauto.
  - right. left. reflexivity.
  - do 4 right. left. exists (status_code r). split; [|reflexivity].
    apply negb_true_iff, Z.eqb_neq in Hstatus. exact Hstatus.
  - do 5 right. exists data. split; [exact (payload_record _ _ Hextract)|reflexivity].
  - do 5 right. exists data. split; [exact (payload_record _ _ Hextract)|reflexivity].
  - do 5 right. exists data. split; [exact (payload_record _ _ Hextract)|reflexivity].
  - do 3 right. left. reflexivity.
  - do 3 right. left. reflexivity.
Qed.

(** X3. A lookup changes the database in one way only: it returned a record
    with the eight keys, which it had fetched with its one request, and the
    database is the old one with that record, serialized, stored under the
    lookup's key for [cache_time] seconds. In every other case (a hit, an
    error answer, an exception anywhere) the database is the one the lookup
    started from. *)
Theorem cache_is_written_only_with_a_record (city country : string) (w : World) :
  redis_db (snd (run env (fetch_weather city country) w)) = redis_db w
  \/ (exists data,
        fst (run env (fetch_weather city country) w) = Returned data
        /\ is_record data
        /\ 0 < cache_time
        /\ upstream_calls (trace (snd (run env (fetch_weather city country) w)))
           = S (upstream_calls (trace w))
        /\ redis_db (snd (run env (fetch_weather city country) w))
           = cache_store (redis_db w)
               (now (snd (run env (fetch_weather city country) w)))
               (cache_key city country) cache_time (json_dumps data)).
Proof.
  lookup_cases; try (left; reflexivity).
  right. exists data. split; [reflexivity|].
  split; [exact (payload_record _ _ Hextract)|]. split; [exact Httl|].
  split; [|reflexivity]. rewrite !upstream_calls_app. cbn. lia.
Qed.

(** X4. A lookup never touches the entry of another key. *)
Theorem lookup_leaves_other_keys (city country name : string) (w : World) :
  name <> cache_key city country ->
  redis_db (snd (run env (fetch_weather city country) w)) !! name
  = redis_db w !! name.
Proof.
  intros Hother. lookup_cases; try reflexivity.
  unfold cache_store. apply lookup_insert_ne. congruence.
Qed.


(** The API branch does not read the database: started from two worlds with
    the same clock and history it ends the same way, with the same history
    and clock. *)
Lemma from_api_ignores_db (key city country : string) (w1 w2 : World) :
  now w1 = now w2 -> trace w1 = trace w2 ->
  fst (run env (from_api key city country) w1)
  = fst (run env (from_api key city country) w2)
  /\ trace (snd (run env (from_api key city country) w1))
     = trace (snd (run env (from_api key city country) w2))
  /\ now (snd (run env (from_api key city country) w1))
     = now (snd (run env (from_api key city country) w2)).
Proof.
  intros Hnow Htrace. rewrite !run_from_api. cbv zeta. cbn [log trace].
  rewrite <- Htrace.
  destruct (http env _) as [elapsed [r|]];
    [destruct (negb _); [|destruct (_ ≫= extract) as [data|e]]|];
    unfold populate, do_setex; cbv zeta; cbn [log trace advance];
    rewrite <- ?Htrace;
    repeat match goal with |- context [if ?b then _ else _] => destruct b end;
    cbn [fst snd trace now log advance]; rewrite <- ?Htrace, ?Hnow; auto.
Qed.

(** X6. An entry whose text is empty counts as no entry: the lookup ends as
    it does on the database without the entry, after the same calls and at
    the same time, and, Redis answering, it asks the provider. *)
Theorem empty_entry_is_a_miss (city country : string) (w : World) (expires : Z) :
  let key := cache_key city country in
  redis_db w !! key = Some (EmptyString, expires) ->
  fst (run env (fetch_weather city country) w)
  = fst (run env (fetch_weather city country) (forget key w))
  /\ trace (snd (run env (fetch_weather city country) w))
     = trace (snd (run env (fetch_weather city country) (forget key w)))
  /\ now (snd (run env (fetch_weather city country) w))
     = now (snd (run env (fetch_weather city country) (forget key w)))
  /\ (redis_fails env (trace w ++ [EvRedisGet key]) = false ->
      upstream_calls (trace (snd (run env (fetch_weather city country) w)))
      = S (upstream_calls (trace w))).
Proof.
  intros key Hentry.
  assert (Hmiss : truth (cache_lookup (redis_db w) (now w) key) = false).
  { unfold cache_lookup. rewrite Hentry. destruct (now w <? expires); reflexivity. }
  assert (Hgone : truth (cache_lookup (redis_db (forget key w)) (now (forget key w)) key)
                  = false).
  { unfold cache_lookup, forget. cbn [redis_db]. rewrite lookup_delete_eq. reflexivity. }
  rewrite !run_fetch_weather. cbv zeta. fold key. rewrite Hmiss, Hgone.
  cbn [log trace forget].
  destruct (redis_fails env _) eqn:Hup.
  - repeat split; try reflexivity. discriminate.
  - destruct (from_api_ignores_db key city country
                (log (EvRedisGet key) w) (log (EvRedisGet key) (forget key w)))
      as (Hout & Htrace & Hnow); [reflexivity..|].
    repeat split; try assumption.
    intros _. rewrite from_api_one_request. cbn [log trace].
    rewrite upstream_calls_app. cbn. lia.
Qed.

End OneLookup.

(** ** One request to /weather *)

Section OneRequest.

Context {globals : Globals}.
Variable env : Env.

(** The route either answers without leaving a trace in the world, or it
    hands the pair it unpacked to [fetch_weather] and makes no call of its
    own. *)
Lemma weather_world (info : option string) (w : World) :
  (malformed info = true /\ snd (run env (weather info) w) = w)
  \/ (exists s city country,
        info = Some s
        /\ split_location (Some s) = Returned (city, country)
        /\ snd (run env (weather info) w)
           = snd (run env (fetch_weather city country) w)).
Proof.
  destruct info as [s|]; [|left; split; reflexivity].
  destruct (split_location (Some s)) as [[city country]|e] eqn:Hsplit.
  - right. exists s, city, country. split; [reflexivity|]. split; [exact Hsplit|].
    rewrite (run_weather_accepted env s city country w Hsplit).
    destruct (run env (fetch_weather city country) w) as [[data|e] w']; reflexivity.
  - left. cbn [split_location] in Hsplit.
    unfold location_parts, PyStr.split_comma_1 in Hsplit.
    destruct (has_comma s) eqn:Hcomma.
    + destruct (cut_comma_Some s Hcomma) as (a & b & Hcut).
      rewrite Hcut in Hsplit. discriminate.
    + split; [cbn [malformed]; rewrite Hcomma; reflexivity|].
      unfold weather. destruct (truth (Some s)); [|reflexivity].
      cbn [negb split_location]. unfold location_parts, PyStr.split_comma_1.
      rewrite (cut_comma_None s Hcomma). reflexivity.
Qed.

(** X7. The calls one request makes, in order. A refused request makes
    none. An accepted one reads the cache under the key of the pair it
    unpacked; after the read comes nothing (the read failed), or the prints
    of a hit, or the one request to the provider for that pair, followed by
    nothing (no usable answer), by the error print, or by the two prints and
    the write of a record under the same key for [cache_time] seconds. *)
Theorem request_protocol (info : option string) (w : World) :
  (malformed info = true /\ trace (snd (run env (weather info) w)) = trace w)
  \/ (exists s city country rest,
        info = Some s
        /\ split_location (Some s) = Returned (city, country)
        /\ trace (snd (run env (weather info) w))
           = trace w ++ EvRedisGet (cache_key city country) :: rest
        /\ (rest = []
            \/ rest = [from_cache_banner]
            \/ (exists data, rest = [from_cache_banner; EvPrint [data]])
            \/ rest = [EvRequestsGet url (request_params city country)]
            \/ (exists status,
                  status <> 200
                  /\ rest = [EvRequestsGet url (request_params city country);
                             EvPrint [JStr "API Error:"; JInt status]])
            \/ (exists data,
                  is_record data
                  /\ rest = [EvRequestsGet url (request_params city country);
                             from_api_banner; EvPrint [data];
                             EvRedisSetex (cache_key city country) cache_time
                               (json_dumps data)]))).
Proof.
  destruct (weather_world info w)
    as [[Hbad ->]|(s & city & country & -> & Hsplit & ->)].
  - left. split; [exact Hbad|reflexivity].
  - right. destruct (fetch_weather_history env city country w) as (rest & Hrest & Hshape).
    exists s, city, country, rest. auto.
Qed.

(** X8. One request costs at most one cache read, one request to the
    provider and one cache write, and makes them in this order: when the
    provider is asked, the cache read has been made before; when the cache
    is written, the provider has been asked before. *)
Theorem request_call_budget (info : option string) (w : World) :
  exists added,
    trace (snd (run env (weather info) w)) = trace w ++ added
    /\ (cache_reads added <= 1)%nat
    /\ (upstream_calls added <= 1)%nat
    /\ (cache_writes added <= 1)%nat
    /\ (forall before e after,
          added = before ++ e :: after -> is_request e = true ->
          cache_reads before = 1%nat)
    /\ (forall before e after,
          added = before ++ e :: after -> is_setex e = true ->
          upstream_calls before = 1%nat).
Proof.
  destruct (weather_world info w)
    as [[_ ->]|(s & city & country & _ & _ & ->)].
  - exists []. rewrite app_nil_r. repeat split; try (cbn; lia);
      intros [|? before] ev after Heq; discriminate Heq.
  - destruct (fetch_weather_history env city country w) as (rest & -> & Hshape).
    eexists. split; [reflexivity|].
    destruct Hshape as [->|[->|[[data ->]|[->|[(status & _ & ->)|(data & _ & ->)]]]]];
      (repeat split; try (cbn; lia));
      intros before ev after Heq He;
      repeat (destruct before as [|? before];
              [injection Heq as <- _; try discriminate He; reflexivity
              |injection Heq as <- Heq]);
      try discriminate He;
      destruct before; discriminate Heq.
Qed.



End OneRequest.

(** ** The lifetime of an entry *)

Lemma serve_in_turn_app (env : Env) {A : Type} (first second : list (Z * prog A))
    (w : World) :
  serve_in_turn env (first ++ second) w
  = let '(r1, w1) := serve_in_turn env first w in
    let '(r2, w2) := serve_in_turn env second w1 in
    (r1 ++ r2, w2).
Proof.
  revert w. induction first as [|[gap p] first IH]; intros w; cbn [app serve_in_turn].
  - destruct (serve_in_turn env second w) as [r2 w2]. reflexivity.
  - destruct (run env p (advance gap w)) as [r w']. rewrite IH.
    destruct (serve_in_turn env first w') as [r1 w1].
    destruct (serve_in_turn env second w1) as [r2 w2]. reflexivity.
Qed.

Section Lifetime.

Context {globals : Globals}.
Variable env : Env.
Hypothesis redis_up : forall h, redis_fails env h = false.

(** Lookups answered from a live entry leave the entry as it is and move
    the clock by the time between them only. *)
Lemma hits_keep_the_entry (city country : string) (data : json) (expires : Z)
    (gaps : list Z) :
  json_dumps data <> EmptyString ->
  json_loads (json_dumps data) = Some data ->
  Forall (fun g => 0 <= g) gaps ->
  forall w : World,
    redis_db w !! cache_key city country = Some (json_dumps data, expires) ->
    now w + total gaps < expires ->
    exists w',
      serve_in_turn env (map (fun g => (g, fetch_weather city country)) gaps) w
      = (replicate (length gaps) (Returned data), w')
      /\ upstream_calls (trace w') = upstream_calls (trace w)
      /\ redis_db w' = redis_db w
      /\ now w' = now w + total gaps.
Proof.
  intros Htext Hback. induction 1 as [|g gaps Hg Hgaps IH]; intros w Hentry Hlive.
  - exists w. cbn. repeat split; lia.
  - pose proof (total_nonneg gaps Hgaps) as Hrest. cbn [total] in Hlive.
    destruct (cache_hit env city country (advance g w) (json_dumps data))
      as (w1 & Hrun & Hcalls & Hdb & Hnow).
    + apply redis_up.
    + cbn [advance redis_db now]. unfold cache_lookup. rewrite Hentry.
      destruct (Z.ltb_spec (now w + g) expires); [reflexivity|lia].
    + exact Htext.
    + rewrite Hback in Hrun. cbn [advance redis_db now trace] in Hcalls, Hdb, Hnow.
      destruct (IH w1) as (w' & Hserve & Hcalls' & Hdb' & Hnow').
      * rewrite Hdb. exact Hentry.
      * lia.
      * exists w'. cbn [map serve_in_turn length replicate total].
        rewrite Hrun, Hserve. repeat split; [congruence..|lia].
Qed.

(** X10. Reading an entry does not prolong it: however many lookups were
    answered from the cache before, the first lookup that arrives at or
    after the time the entry was set to expire asks the provider. *)
Theorem reading_does_not_extend_the_lifetime
    (city country : string) (data : json) (expires : Z) (gaps : list Z)
    (late : Z) (w : World) :
  json_dumps data <> EmptyString ->
  json_loads (json_dumps data) = Some data ->
  Forall (fun g => 0 <= g) gaps ->
  redis_db w !! cache_key city country = Some (json_dumps data, expires) ->
  now w + total gaps < expires ->
  expires <= now w + total gaps + late ->
  exists answer w',
    serve_in_turn env
      (map (fun g => (g, fetch_weather city country)) (gaps ++ [late])) w
    = (replicate (length gaps) (Returned data) ++ [answer], w')
    /\ upstream_calls (trace w') = S (upstream_calls (trace w)).
Proof.
  intros Htext Hback Hgaps Hentry Hlive Hlate.
  destruct (hits_keep_the_entry city country data expires gaps Htext Hback Hgaps
              w Hentry Hlive) as (w1 & Hserve & Hcalls & Hdb & Hnow).
  rewrite map_app, serve_in_turn_app, Hserve. cbn [map serve_in_turn].
  pose proof (miss_one_request env city country (advance late w1)) as Hmiss.
  destruct (run env (fetch_weather city country) (advance late w1))
    as [answer w'] eqn:Hrun.
  exists answer, w'. split; [reflexivity|].
  cbn [snd advance trace redis_db now] in Hmiss. rewrite Hmiss, Hcalls.
  - reflexivity.
  - apply redis_up.
  - unfold cache_lookup. rewrite Hdb, Hentry.
    destruct (Z.ltb_spec (now w1 + late) expires); [lia|reflexivity].
Qed.

End Lifetime.

(** The theorem applies to the entry a first lookup stored at time 1 for
    300 seconds: two reads 100 seconds apart, then one 101 seconds later. *)
Lemma reading_does_not_extend_the_lifetime_witness :
  exists answer w',
    serve_in_turn Sample.healthy
      (map (fun g => (g, @fetch_weather Sample.globals "hyderabad" "in"))
         ([100; 100] ++ [101]))
      (snd (run Sample.healthy (@fetch_weather Sample.globals "hyderabad" "in")
              Sample.cold))
    = (replicate (length [100; 100]) (Returned Sample.record) ++ [answer], w')
    /\ upstream_calls (trace w')
       = S (upstream_calls
              (trace (snd (run Sample.healthy
                             (@fetch_weather Sample.globals "hyderabad" "in")
                             Sample.cold)))).
Proof.
  apply (@reading_does_not_extend_the_lifetime Sample.globals Sample.healthy
           (fun _ => eq_refl) "hyderabad" "in" Sample.record 301 [100; 100] 101);
    try reflexivity; try discriminate.
  repeat constructor; lia.
Defined.

Section VariantRequest.

Context {globals : Globals}.
Variable env : Env.

(** X11. After a request that fetched a record and showed it, a request
    whose text unpacks into the same pair, made less than [cache_time]
    seconds later, shows the same record without asking the provider;
    [json.loads] is taken to read back what [json.dumps] wrote for the
    record. *)
Theorem variant_request_is_served_from_cache
    (info info' city country : string) (w w1 : World) (data : json) (dt : Z) :
  split_location (Some info) = Returned (city, country) ->
  split_location (Some info') = Returned (city, country) ->
  run env (weather (Some info)) w
  = (Returned (Rendered "weather_info.html" data), w1) ->
  upstream_calls (trace w1) = S (upstream_calls (trace w)) ->
  0 <= dt < cache_time ->
  redis_fails env (trace w1 ++ [EvRedisGet (cache_key city country)]) = false ->
  json_dumps data <> EmptyString ->
  json_loads (json_dumps data) = Some data ->
  exists w2,
    run env (weather (Some info')) (advance dt w1)
    = (Returned (Rendered "weather_info.html" data), w2)
    /\ upstream_calls (trace w2) = upstream_calls (trace w1)
    /\ redis_db w2 = redis_db w1.
Proof.
  intros Hsplit Hsplit' Hfirst Hasked Hdt Hup Htext Hback.
  rewrite (run_weather_accepted env info city country w Hsplit) in Hfirst.
  destruct (run env (fetch_weather city country) w) as [[data0|e] w0] eqn:Hrun;
    [|discriminate].
  destruct (is_None data0) eqn:Hnone; [discriminate|].
  injection Hfirst as -> ->.
  assert (Hrecord : data <> JNull) by (intros ->; discriminate).
  destruct (fetched_record_is_stored env _ _ _ _ _ Hrun Hasked Hrecord) as [_ Hdb].
  destruct (cache_hit env city country (advance dt w1) (json_dumps data))
    as (w2 & Hrun2 & Hcalls & Hdb2 & _).
  - exact Hup.
  - cbn [advance redis_db now]. rewrite Hdb, cache_lookup_store.
    rewrite decide_True by reflexivity.
    destruct (Z.ltb_spec (now w1 + dt) (now w1 + cache_time)); [reflexivity|lia].
  - exact Htext.
  - rewrite Hback in Hrun2. exists w2.
    rewrite (run_weather_accepted env info' city country _ Hsplit'), Hrun2, Hnone.
    auto.
Qed.

End VariantRequest.

(** The theorem applies to ["Hyderabad,IN"] followed 299 seconds later by
    [" hyderabad , in "]. *)
Lemma variant_request_is_served_from_cache_witness :
  exists w2,
    run Sample.healthy (@weather Sample.globals (Some " hyderabad , in "))
      (advance 299 (snd (run Sample.healthy
                           (@weather Sample.globals (Some "Hyderabad,IN"))
                           Sample.cold)))
    = (Returned (Rendered "weather_info.html" Sample.record), w2)
    /\ upstream_calls (trace w2) = 1%nat
    /\ redis_db w2
       = redis_db (snd (run Sample.healthy
                          (@weather Sample.globals (Some "Hyderabad,IN"))
                          Sample.cold)).
Proof.
  apply (@variant_request_is_served_from_cache Sample.globals Sample.healthy
           "Hyderabad,IN" " hyderabad , in " "hyderabad" "in" Sample.cold
           (snd (run Sample.healthy (@weather Sample.globals (Some "Hyderabad,IN"))
                   Sample.cold))
           Sample.record 299);
    try reflexivity; try discriminate.
  cbn. lia.
Defined.

(** The frame theorem applies to the key of another city. *)
Lemma lookup_leaves_other_keys_witness :
  redis_db (snd (run Sample.healthy (@fetch_weather Sample.globals "delhi" "in")
                   Foreign.corrupt)) !! "weather:hyderabad,in"
  = redis_db Foreign.corrupt !! "weather:hyderabad,in".
Proof.
  apply (@lookup_leaves_other_keys Sample.globals Sample.healthy
           "delhi" "in" "weather:hyderabad,in" Foreign.corrupt).
  discriminate.
Defined.


(** The theorem on empty entries applies to the world whose entry of
    Hyderabad is the empty text. *)
Lemma empty_entry_is_a_miss_witness :
  let key := cache_key "hyderabad" "in" in
  fst (run Sample.healthy (@fetch_weather Sample.globals "hyderabad" "in")
         Foreign.blank)
  = fst (run Sample.healthy (@fetch_weather Sample.globals "hyderabad" "in")
           (forget key Foreign.blank))
  /\ trace (snd (run Sample.healthy (@fetch_weather Sample.globals "hyderabad" "in")
                   Foreign.blank))
     = trace (snd (run Sample.healthy
                     (@fetch_weather Sample.globals "hyderabad" "in")
                     (forget key Foreign.blank)))
  /\ now (snd (run Sample.healthy (@fetch_weather Sample.globals "hyderabad" "in")
                 Foreign.blank))
     = now (snd (run Sample.healthy (@fetch_weather Sample.globals "hyderabad" "in")
                   (forget key Foreign.blank)))
  /\ (redis_fails Sample.healthy (trace Foreign.blank ++ [EvRedisGet key]) = false ->
      upstream_calls
        (trace (snd (run Sample.healthy
                       (@fetch_weather Sample.globals "hyderabad" "in")
                       Foreign.blank)))
      = S (upstream_calls (trace Foreign.blank))).
Proof.
  apply (@empty_entry_is_a_miss Sample.globals Sample.healthy
           "hyderabad" "in" Foreign.blank 300).
  reflexivity.
Defined.

(** ** The pair the route hands to [fetch_weather] *)

Lemma lower_char_facts (c : ascii) :
  PyStr.isspace (PyStr.lower_char c) = PyStr.isspace c
  /\ PyStr.isupper (PyStr.lower_char c) = false
  /\ Ascii.eqb (PyStr.lower_char c) PyStr.comma = Ascii.eqb c PyStr.comma.
Proof. destruct c as [[] [] [] [] [] [] [] []]; repeat split; reflexivity. Qed.

Lemma lower_char_fixed (c : ascii) :
  PyStr.isupper c = false -> PyStr.lower_char c = c.
Proof. unfold PyStr.lower_char. intros ->. reflexivity. Qed.

Lemma all_lower_lower (s : string) : all_lower (PyStr.lower s) = true.
Proof.
  induction s as [|c s IH]; cbn; [reflexivity|].
  rewrite (proj1 (proj2 (lower_char_facts c))), IH. reflexivity.
Qed.

Lemma lower_fixed (s : string) : all_lower s = true -> PyStr.lower s = s.
Proof.
  induction s as [|c s IH]; cbn; [reflexivity|].
  intros [Hc Hs]%andb_true_iff. apply negb_true_iff in Hc.
  rewrite (lower_char_fixed c Hc), (IH Hs). reflexivity.
Qed.

Lemma has_comma_lower (s : string) : has_comma (PyStr.lower s) = has_comma s.
Proof.
  induction s as [|c s IH]; cbn; [reflexivity|].
  rewrite (proj2 (proj2 (lower_char_facts c))), IH. reflexivity.
Qed.

Lemma starts_clean_lower (s : string) :
  starts_clean (PyStr.lower s) = starts_clean s.
Proof.
  destruct s as [|c s]; cbn; [reflexivity|].
  rewrite (proj1 (lower_char_facts c)). reflexivity.
Qed.

Lemma ends_clean_lower (s : string) : ends_clean (PyStr.lower s) = ends_clean s.
Proof.
  induction s as [|c s IH]; [reflexivity|].
  destruct s as [|c' s]; cbn in *.
  - rewrite (proj1 (lower_char_facts c)). reflexivity.
  - exact IH.
Qed.

(** [lstrip] takes a run of whitespace off the front and nothing else. *)
Lemma lstrip_split (s : string) :
  exists l, all_space l = true /\ s = l +:+ PyStr.lstrip s
            /\ starts_clean (PyStr.lstrip s) = true.
Proof.
  induction s as [|c s (l & Hl & Hs & Hclean)].
  - exists EmptyString. repeat split.
  - cbn [PyStr.lstrip]. destruct (PyStr.isspace c) eqn:Hc.
    + exists (String c l). cbn [all_space]. rewrite Hc, Hl. push_append.
      rewrite <- Hs. repeat split. exact Hclean.
    + exists EmptyString. cbn. rewrite Hc. repeat split.
Qed.

(** [rstrip] takes a run of whitespace off the end and nothing else. *)
Lemma rstrip_split (s : string) :
  exists r, all_space r = true /\ s = PyStr.rstrip s +:+ r
            /\ ends_clean (PyStr.rstrip s) = true.
Proof.
  induction s as [|c s (r & Hr & Hs & Hclean)].
  - exists EmptyString. repeat split.
  - cbn [PyStr.rstrip]. destruct (PyStr.rstrip s) as [|c' s'] eqn:Hstrip.
    + rewrite append_nil in Hs. subst r.
      destruct (PyStr.isspace c) eqn:Hc.
      * exists (String c s). cbn [all_space]. rewrite Hc, Hr. repeat split.
      * exists s. push_append. cbn. rewrite Hc. repeat split. exact Hr.
    + exists r. push_append. rewrite <- append_cons, <- Hs.
      repeat split; [exact Hr|]. exact Hclean.
Qed.

Lemma lstrip_clean (s : string) : starts_clean s = true -> PyStr.lstrip s = s.
Proof.
  destruct s as [|c s]; cbn; [reflexivity|].
  intros Hc%negb_true_iff. rewrite Hc. reflexivity.
Qed.

Lemma rstrip_cons (c : ascii) (s : string) :
  PyStr.rstrip (String c s)
  = match PyStr.rstrip s with
    | EmptyString => if PyStr.isspace c then EmptyString else String c EmptyString
    | r => String c r
    end.
Proof. reflexivity. Qed.

Lemma rstrip_clean (s : string) : ends_clean s = true -> PyStr.rstrip s = s.
Proof.
  induction s as [|c s IH]; [reflexivity|].
  destruct s as [|c' s].
  - cbn. intros Hc%negb_true_iff. rewrite Hc. reflexivity.
  - intros Hclean. rewrite rstrip_cons, (IH Hclean). reflexivity.
Qed.

Lemma rstrip_starts_clean (s : string) :
  starts_clean s = true -> starts_clean (PyStr.rstrip s) = true.
Proof.
  destruct s as [|c s]; [reflexivity|].
  cbn [starts_clean PyStr.rstrip]. intros Hc.
  destruct (PyStr.rstrip s); [|exact Hc].
  apply negb_true_iff in Hc. rewrite Hc. cbn. rewrite Hc. reflexivity.
Qed.

(** [strip] takes whitespace off both ends and nothing else. *)
Lemma strip_split (s : string) :
  exists l r,
    all_space l = true /\ all_space r = true
    /\ s = l +:+ PyStr.strip s +:+ r
    /\ starts_clean (PyStr.strip s) = true
    /\ ends_clean (PyStr.strip s) = true.
Proof.
  destruct (lstrip_split s) as (l & Hl & Hs & Hstart).
  destruct (rstrip_split (PyStr.lstrip s)) as (r & Hr & Hs' & Hend).
  exists l, r. unfold PyStr.strip. repeat split; try assumption.
  - rewrite <- Hs'. exact Hs.
  - apply rstrip_starts_clean, Hstart.
Qed.

Lemma strip_clean (s : string) :
  starts_clean s = true -> ends_clean s = true -> PyStr.strip s = s.
Proof.
  intros Hstart Hend. unfold PyStr.strip.
  rewrite (lstrip_clean s Hstart). apply rstrip_clean, Hend.
Qed.

Lemma has_comma_strip (s : string) :
  has_comma s = false -> has_comma (PyStr.strip s) = false.
Proof.
  destruct (strip_split s) as (l & r & _ & _ & Hs & _). intros Hcomma.
  rewrite Hs, !has_comma_app in Hcomma.
  apply orb_false_iff in Hcomma as [_ Hcomma].
  apply orb_false_iff in Hcomma as [Hcomma _]. exact Hcomma.
Qed.

(** [cut_comma] cuts at the first comma. *)
Lemma cut_comma_split (s a b : string) :
  PyStr.cut_comma s = Some (a, b) ->
  has_comma a = false /\ s = a +:+ "," +:+ b.
Proof.
  revert a. induction s as [|c s IH]; intros a; cbn [PyStr.cut_comma];
    [discriminate|].
  destruct (Ascii.eqb_spec c PyStr.comma) as [->|Hc].
  - intros [= <- <-]. split; reflexivity.
  - destruct (PyStr.cut_comma s) as [[a' b']|]; [|discriminate].
    intros [= <- <-]. destruct (IH a' eq_refl) as [Hno ->].
    split; [|reflexivity]. cbn [has_comma]. rewrite Hno.
    destruct (Ascii.eqb_spec c PyStr.comma); [contradiction|reflexivity].
Qed.

(** What unpacking gives, in terms of the two sides of the first comma. *)
Lemma split_location_parts (info city country : string) :
  split_location (Some info) = Returned (city, country) <->
  exists a b,
    PyStr.cut_comma info = Some (a, b)
    /\ city = PyStr.lower (PyStr.strip a)
    /\ country = PyStr.lower (PyStr.strip b).
Proof.
  cbn [split_location]. unfold location_parts, PyStr.split_comma_1. split.
  - destruct (PyStr.cut_comma info) as [[a b]|]; [|discriminate].
    intros [= <- <-]. eauto.
  - intros (a & b & -> & -> & ->). reflexivity.
Qed.

(** The city the route unpacks holds no comma. *)
Lemma unpacked_city_has_no_comma (info city country : string) :
  split_location (Some info) = Returned (city, country) ->
  has_comma city = false.
Proof.
  intros (a & b & Hcut & -> & ->)%split_location_parts.
  destruct (cut_comma_split _ _ _ Hcut) as [Hno _].
  rewrite has_comma_lower. apply has_comma_strip, Hno.
Qed.

(** X12. The route hands [fetch_weather] names that are already lower-cased
    and stripped, as the docstring asks of them: [str.lower] and
    [str.strip] leave the city and the country it passes unchanged, and the
    city holds no comma. *)
Theorem route_passes_normalised_names (info city country : string) :
  split_location (Some info) = Returned (city, country) ->
  PyStr.lower city = city /\ PyStr.lower country = country
  /\ PyStr.strip city = city /\ PyStr.strip country = country
  /\ has_comma city = false.
Proof.
  intros (a & b & Hcut & -> & ->)%split_location_parts.
  destruct (cut_comma_split _ _ _ Hcut) as [Hno _].
  destruct (strip_split a) as (_ & _ & _ & _ & _ & Hsa & Hea).
  destruct (strip_split b) as (_ & _ & _ & _ & _ & Hsb & Heb).
  rewrite (lower_fixed (PyStr.lower (PyStr.strip a))),
    (lower_fixed (PyStr.lower (PyStr.strip b))) by apply all_lower_lower.
  rewrite (strip_clean (PyStr.lower (PyStr.strip a))),
    (strip_clean (PyStr.lower (PyStr.strip b)))
    by (rewrite ?starts_clean_lower, ?ends_clean_lower; assumption).
  rewrite has_comma_lower. repeat split. apply has_comma_strip, Hno.
Qed.

(** X13. What the route unpacks, exactly: the input unpacks into a city and
    a country if and only if it is a text [a] without comma and without
    whitespace at its ends, wrapped in whitespace, then a comma, then a text
    [b] without whitespace at its ends, wrapped in whitespace, the city
    being [a] lower-cased and the country [b] lower-cased. *)
Theorem route_unpacks_exactly (info city country : string) :
  split_location (Some info) = Returned (city, country)
  <->
  exists l1 a r1 l2 b r2,
    info = (l1 +:+ a +:+ r1) +:+ "," +:+ (l2 +:+ b +:+ r2)
    /\ all_space l1 = true /\ all_space r1 = true
    /\ all_space l2 = true /\ all_space r2 = true
    /\ has_comma a = false
    /\ starts_clean a = true /\ ends_clean a = true
    /\ starts_clean b = true /\ ends_clean b = true
    /\ city = PyStr.lower a /\ country = PyStr.lower b.
Proof.
  split.
  - intros (a & b & Hcut & -> & ->)%split_location_parts.
    destruct (cut_comma_split _ _ _ Hcut) as [Hno ->].
    destruct (strip_split a) as (l1 & r1 & Hl1 & Hr1 & Ha & Hsa & Hea).
    destruct (strip_split b) as (l2 & r2 & Hl2 & Hr2 & Hb & Hsb & Heb).
    exists l1, (PyStr.strip a), r1, l2, (PyStr.strip b), r2.
    rewrite <- Ha, <- Hb.
    repeat split; try assumption; try reflexivity.
    apply has_comma_strip, Hno.
  - intros (l1 & a & r1 & l2 & b & r2 & -> & Hl1 & Hr1 & Hl2 & Hr2 & Hno & Hsa & Hea
            & Hsb & Heb & -> & ->).
    apply split_location_parts. exists (l1 +:+ a +:+ r1), (l2 +:+ b +:+ r2).
    split.
    + apply cut_comma_app.
      rewrite !has_comma_app, Hno, !all_space_has_comma by assumption.
      reflexivity.
    + rewrite !strip_padding by assumption.
      rewrite !strip_clean by assumption. split; reflexivity.
Qed.

(** X14. The pair the route unpacks is a fixed point of the route: written
    back as [city,country], as in the query sent to the provider, it unpacks
    into itself and gets the same key. *)
Theorem normalised_pair_is_a_fixed_point (info city country : string) :
  split_location (Some info) = Returned (city, country) ->
  split_location (Some (city +:+ "," +:+ country)) = Returned (city, country)
  /\ route_key (city +:+ "," +:+ country) = route_key info.
Proof.
  intros Hsplit.
  assert (Hfixed : split_location (Some (city +:+ "," +:+ country))
                   = Returned (city, country)).
  { pose proof Hsplit as (a & b & Hcut & -> & ->)%split_location_parts.
    destruct (cut_comma_split _ _ _ Hcut) as [Hno _].
    destruct (strip_split a) as (_ & _ & _ & _ & _ & Hsa & Hea).
    destruct (strip_split b) as (_ & _ & _ & _ & _ & Hsb & Heb).
    apply split_location_parts.
    exists (PyStr.lower (PyStr.strip a)), (PyStr.lower (PyStr.strip b)).
    split.
    - apply cut_comma_app. rewrite has_comma_lower. apply has_comma_strip, Hno.
    - rewrite (strip_clean (PyStr.lower (PyStr.strip a))),
        (strip_clean (PyStr.lower (PyStr.strip b)))
        by (rewrite ?starts_clean_lower, ?ends_clean_lower; assumption).
      rewrite (lower_fixed (PyStr.lower (PyStr.strip a))),
        (lower_fixed (PyStr.lower (PyStr.strip b))) by apply all_lower_lower.
      split; reflexivity. }
  split; [exact Hfixed|]. unfold route_key. rewrite Hfixed, Hsplit. reflexivity.
Qed.

(** X15. Two inputs get the same cache key only if they unpack into the same
    city and country: no two places share an entry. *)
Theorem route_key_injective (info info' key : string) :
  route_key info = Some key ->
  route_key info' = Some key ->
  split_location (Some info) = split_location (Some info').
Proof.
  unfold route_key.
  destruct (split_location (Some info)) as [[c1 k1]|] eqn:H1; [|discriminate].
  destruct (split_location (Some info')) as [[c2 k2]|] eqn:H2; [|discriminate].
  intros [= <-] [= Hkey].
  pose proof (unpacked_city_has_no_comma _ _ _ H1) as Hno1.
  pose proof (unpacked_city_has_no_comma _ _ _ H2) as Hno2.
  change (c2 +:+ "," +:+ k2 = c1 +:+ "," +:+ k1) in Hkey.
  pose proof (cut_comma_app c1 k1 Hno1) as Hcut1.
  pose proof (cut_comma_app c2 k2 Hno2) as Hcut2.
  rewrite Hkey in Hcut2. rewrite Hcut1 in Hcut2.
  injection Hcut2 as -> ->. reflexivity.
Qed.

(** The theorem on what the route passes applies to [" Hyderabad , IN "]. *)
Lemma route_passes_normalised_names_witness :
  PyStr.lower "hyderabad" = "hyderabad" /\ PyStr.lower "in" = "in"
  /\ PyStr.strip "hyderabad" = "hyderabad" /\ PyStr.strip "in" = "in"
  /\ has_comma "hyderabad" = false.
Proof.
  apply (route_passes_normalised_names " Hyderabad , IN " "hyderabad" "in").
  reflexivity.
Defined.

(** The fixed-point theorem applies to [" Hyderabad , IN "]. *)
Lemma normalised_pair_is_a_fixed_point_witness :
  split_location (Some ("hyderabad" +:+ "," +:+ "in")) = Returned ("hyderabad", "in")
  /\ route_key ("hyderabad" +:+ "," +:+ "in") = route_key " Hyderabad , IN ".
Proof.
  apply (normalised_pair_is_a_fixed_point " Hyderabad , IN " "hyderabad" "in").
  reflexivity.
Defined.

(** The theorem on shared keys applies to two spellings of one place. *)
Lemma route_key_injective_witness :
  split_location (Some "Hyderabad,IN") = split_location (Some " hyderabad , in ").
Proof.
  apply (route_key_injective "Hyderabad,IN" " hyderabad , in " "weather:hyderabad,in");
    reflexivity.
Defined.

(** ** An entry is served as it is *)

Section LiveEntry.

Context {globals : Globals}.
Variable env : Env.


End LiveEntry.

